(** * Excalidraw_Interface: the SketchBuilder of sketch_builder.py

    A shallow embedding of [Excalidraw_Interface/sketch_builder.py] and the
    properties of its builder operations.

    Conventions of the embedding.
    - Python numbers ([int] and [float]) are read as the real numbers [R]
      they denote. Coordinates, extents and paddings are combined exactly.
      The angles of a binding arrow (lines 144-148) are computed as Python
      computes them on floats, in binary64: each operation there returns the
      exact result rounded to the nearest binary64 number. Overflow is not
      modelled.
    - Python objects are mutable and shared by reference: primitives live in
      a heap (a list indexed by allocation order), and the builder's
      [draw_objs] holds references into it.
    - [uuid.uuid4()] reads the next element of a stream of identifiers; the
      number of calls made so far is part of the state.
    - A Python exception ends the computation with [Raise]; the state in
      which it was raised is not part of the result.
    - Whether [open(path, "w")] succeeds is decided by the file system, and
      [math.atan2] is the function of the C library: both are parameters.
    - The modules [primitives] and [defaults] of the package are imported by
      sketch_builder.py; what the builder uses of them is modelled below,
      each part under a comment that says where it comes from. *)

From Stdlib Require Import Reals Lra ZArith Ascii.
From stdpp Require Import base option list strings gmap.
From stdpp Require Import relations.

(** ** Python values *)

(** Values of style mappings and keyword arguments. *)
Inductive pyval : Type :=
| PyNone
| PyBool (b : bool)
| PyNum (r : R)
| PyStr (s : string).

(** A [dict] with string keys: the style profiles and [**kwargs]. *)
Abbreviation pydict := (gmap string pyval).

(** What [json.dump] can serialise. *)
#[warnings="-register-all"]
Inductive json : Type :=
| JNull
| JBool (b : bool)
| JNum (r : R)
| JStr (s : string)
| JArr (l : list json)
| JObj (l : list (string * json)).

(** Exceptions the builder can end with. *)
Inductive PyExc : Type :=
| Exception (msg : string)
| TypeError (msg : string)
| IndexError (msg : string)
| ReferenceError (msg : string)
| OSError (msg : string).

(** ** Binary64 floating-point numbers *)

(** A Python [float] is a binary64 number, read here as the real number it
    denotes. An operation on floats returns the exact result rounded to the
    nearest binary64 number, a tie going to the number whose last bit is 0.
    Infinities, NaN and the sign of zero are not modelled. *)
Module binary64.

(** 2^e. *)
Definition bpow (e : Z) : R := powerRZ 2 e.

(** The exponent [e] with 2^(e-1) <= |x| < 2^e, for [x] other than 0. *)
Definition mag (x : R) : Z := (Zfloor (ln (Rabs x) / ln 2) + 1)%Z.

(** The exponent of the last bit of the binary64 numbers around [x]: 53 bits
    of precision, and 2^-1074 in the subnormal range. *)
Definition cexp (x : R) : Z := Z.max (mag x - 53) (-1074).

(** The nearest integer, a tie going to the even one. *)
Definition Znearest_even (x : R) : Z :=
  let f := Zfloor x in
  if Rlt_dec (x - IZR f) (/ 2) then f
  else if Rlt_dec (/ 2) (x - IZR f) then (f + 1)%Z
  else if Z.even f then f else (f + 1)%Z.

(** The binary64 number nearest to [x]. *)
Definition round (x : R) : R :=
  (IZR (Znearest_even (x * bpow (- cexp x))) * bpow (cexp x))%R.

End binary64.

(** [a + b], [a - b] and [a * b] on floats. *)
Definition float_add (a b : R) : R := binary64.round (a + b).
Definition float_sub (a b : R) : R := binary64.round (a - b).
Definition float_mul (a b : R) : R := binary64.round (a * b).

(** ** The [math] module *)
Module math.

(** [math.pi], the binary64 number nearest to pi: 0x1.921fb54442d18p+1, that
    is 7074237752028440 * 2^-51, a little less than pi. *)
Definition pi : R := (7074237752028440 / 2251799813685248)%R.

(** [math.atan2(y, x)] is the function [atan2] of the C library, which is not
    part of the sources at hand: it is a parameter. What C guarantees of it
    and the angles below rely on: the result lies between [-pi] and [pi] as
    floats, and [atan2(0, 0)] is 0. *)
Class libm : Type := {
  atan2 : R -> R -> R;
  atan2_range : forall y x : R, (- pi <= atan2 y x <= pi)%R;
  atan2_zero : atan2 0 0 = 0%R
}.

End math.

(** The integer part of [x], towards 0. *)
Definition Ztrunc (x : R) : Z := if Rlt_dec x 0 then Zceil x else Zfloor x.

(** The C function [fmod]: the remainder of [x / y] with the sign of [x]. It
    is a binary64 number when [x] and [y] are, so nothing is rounded. *)
Definition fmod (x y : R) : R := (x - y * IZR (Ztrunc (x / y)))%R.

(** [x < 0]. *)
Definition negative (x : R) : bool := if Rlt_dec x 0 then true else false.

(** Python's [vx % wx] on floats, for a divisor other than 0: the remainder
    of [fmod]; when it is not 0 and its sign is not the divisor's, the
    divisor is added to it, which is an addition of floats; a remainder 0
    is returned as 0. *)
Definition py_mod (vx wx : R) : R :=
  let rem := fmod vx wx in
  if Req_dec_T rem 0 then 0%R
  else if xorb (negative wx) (negative rem) then float_add rem wx
  else rem.

(** ** The [defaults] module *)

(** The static style tables of defaults.py, which is not part of the sources
    at hand: they are taken as parameters. *)
Module defaults.
Class tables : Type := {
  BOX_DEFAULTS : pydict;
  LINE_DEFAULTS : pydict;
  TEXT_DEFAULTS : pydict
}.
End defaults.

(** ** The [uuid] module *)
Module uuid.
(** [uuid4 n] is the identifier returned by the [n]-th call of
    [uuid.uuid4()] in this process. *)
Class generator : Type := { uuid4 : nat -> string }.
End uuid.

(** ** The files *)
Module os.
(** Whether [open(path, "w")] succeeds (the directory exists, the path is no
    directory, the process may write there) is decided by the file system,
    which the builder does not change: it is a parameter. *)
Class filesystem : Type := { writable : string -> bool }.
End os.

(** ** The [primitives] module *)
Module primitives.

(** The Python class of a primitive. *)
Inductive PrimitiveClass : Type := ShapeClass | TextClass | LineClass.

(** Modelled from the spec: primitives.py is not part of the sources at
    hand. A binding is the target's id and a gap (the padding): a relation by
    identifier, not a reference to the target. *)
Record Binding : Type := {
  elementId : string;
  gap : R
}.

(** Modelled from the spec: primitives.py is not part of the sources at
    hand. The data model of a primitive: identity, kind, center coordinates,
    extents, style, group identifiers; a text has its content, a line its
    points and its two optional bindings. *)
Record ExcaliDrawPrimitive : Type := {
  class_of : PrimitiveClass;
  excal_type : string;
  id : string;
  x : R;
  y : R;
  width : R;
  height : R;
  config : pydict;
  groupIds : list string;
  text : string;
  points : list (R * R);
  startBinding : option Binding;
  endBinding : option Binding
}.

(** What the builder calls on primitives and this development leaves open:
    the text metrics, the edge geometry and the serialisation. Each is a pure
    function of the primitive (the spec: [get_edge_midpoint] "has no side
    effects"; export has "no hidden per-call-mutating side effects"). *)
Class methods : Type := {
  text_extent : string -> pydict -> R * R;
  get_edge_midpoint : ExcaliDrawPrimitive -> R -> R -> R * R;
  export : ExcaliDrawPrimitive -> json
}.

(** Modelled from the spec: the derived property [center] is (x, y). *)
Definition center (p : ExcaliDrawPrimitive) : R * R := (x p, y p).

(** Modelled from the spec: the style of a primitive is the defaults merged
    with the caller's overrides, and the override wins on a key collision. *)
Definition merge_style (default_config kwargs : pydict) : pydict :=
  kwargs ∪ default_config.

(** Modelled from the spec: [Shape(kind, defaults, x, y, width, height,
    **kwargs)], given the identifier drawn for it. No group at creation. *)
Definition Shape (kind : string) (default_config : pydict)
    (cx cy w h : R) (kwargs : pydict) (new_id : string) : ExcaliDrawPrimitive :=
  {| class_of := ShapeClass; excal_type := kind; id := new_id;
     x := cx; y := cy; width := w; height := h;
     config := merge_style default_config kwargs;
     groupIds := []; text := ""; points := [];
     startBinding := None; endBinding := None |}.

(** Modelled from the spec: [Text(text, defaults, x, y, **kwargs)]; width
    and height are computed from the content. *)
Definition Text `{methods} (content : string) (default_config : pydict)
    (cx cy : R) (kwargs : pydict) (new_id : string) : ExcaliDrawPrimitive :=
  let cfg := merge_style default_config kwargs in
  {| class_of := TextClass; excal_type := "text"; id := new_id;
     x := cx; y := cy;
     width := (text_extent content cfg).1; height := (text_extent content cfg).2;
     config := cfg;
     groupIds := []; text := content; points := [];
     startBinding := None; endBinding := None |}.

(** Modelled from the spec: [Line(kind, defaults, start_pt, end_pt,
    **kwargs)] stores two points relative to the first one and takes its
    extents from their bounding box; no binding at creation. The arrowheads
    are the style keys [startArrowhead] and [endArrowhead]. *)
Definition Line (kind : string) (default_config : pydict)
    (start_pt end_pt : R * R) (kwargs : pydict) (new_id : string) : ExcaliDrawPrimitive :=
  {| class_of := LineClass; excal_type := kind; id := new_id;
     x := start_pt.1; y := start_pt.2;
     width := Rabs (end_pt.1 - start_pt.1); height := Rabs (end_pt.2 - start_pt.2);
     config := merge_style default_config kwargs;
     groupIds := []; text := "";
     points := [(0, 0); (end_pt.1 - start_pt.1, end_pt.2 - start_pt.2)]%R;
     startBinding := None; endBinding := None |}.

Definition startArrowhead (p : ExcaliDrawPrimitive) : option pyval :=
  config p !! "startArrowhead".

Definition endArrowhead (p : ExcaliDrawPrimitive) : option pyval :=
  config p !! "endArrowhead".

(** Modelled from the spec: [line.set_start_binding(target, padding)] records
    the target's id and the padding on the line, and leaves the target as it
    is. *)
Definition set_start_binding (line target : ExcaliDrawPrimitive) (padding : R)
    : ExcaliDrawPrimitive :=
  {| class_of := class_of line; excal_type := excal_type line; id := id line;
     x := x line; y := y line; width := width line; height := height line;
     config := config line; groupIds := groupIds line; text := text line;
     points := points line;
     startBinding := Some {| elementId := id target; gap := padding |};
     endBinding := endBinding line |}.

(** Modelled from the spec: [line.set_end_binding(target, padding)]. *)
Definition set_end_binding (line target : ExcaliDrawPrimitive) (padding : R)
    : ExcaliDrawPrimitive :=
  {| class_of := class_of line; excal_type := excal_type line; id := id line;
     x := x line; y := y line; width := width line; height := height line;
     config := config line; groupIds := groupIds line; text := text line;
     points := points line;
     startBinding := startBinding line;
     endBinding := Some {| elementId := id target; gap := padding |} |}.

(** [p.groupIds.append(g)]. *)
Definition append_groupId (p : ExcaliDrawPrimitive) (g : string) : ExcaliDrawPrimitive :=
  {| class_of := class_of p; excal_type := excal_type p; id := id p;
     x := x p; y := y p; width := width p; height := height p;
     config := config p; groupIds := groupIds p ++ [g]; text := text p;
     points := points p;
     startBinding := startBinding p; endBinding := endBinding p |}.

End primitives.

(** ** The builder and the state of a run *)

(** A reference to a primitive: its position in the heap. *)
Definition ref : Type := nat.

(** [self.data], a dict with five fixed keys. *)
Record Document : Type := {
  type_ : string;
  version : Z;
  source : string;
  elements : list json;
  appState : list (string * json)
}.

(** The attributes of a [SketchBuilder]. *)
Record SketchBuilder : Type := {
  data : Document;
  draw_objs : list ref;
  BOX_DEFAULTS : pydict;
  LINE_DEFAULTS : pydict;
  TEXT_DEFAULTS : pydict
}.

(** The builder [self], the objects it can reach, the number of identifiers
    drawn so far, and the files written. *)
Record State : Type := {
  self : SketchBuilder;
  heap : list primitives.ExcaliDrawPrimitive;
  uuid_calls : nat;
  files : gmap string Document
}.

Inductive Result (A : Type) : Type :=
| Ok (a : A)
| Raise (e : PyExc).
Arguments Ok {A} a.
Arguments Raise {A} e.

(** A method body: it reads and updates the state, and returns or raises. *)
Definition M (A : Type) : Type := State -> Result (A * State).

#[export] Instance M_ret : MRet M := fun A a s => Ok (a, s).

#[export] Instance M_bind : MBind M := fun A B k c s =>
  match c s with
  | Ok (a, s') => k a s'
  | Raise e => Raise e
  end.

Definition raise {A} (e : PyExc) : M A := fun _ => Raise e.

Definition with_self (sb : SketchBuilder) (s : State) : State :=
  {| self := sb; heap := heap s; uuid_calls := uuid_calls s; files := files s |}.

Definition with_heap (h : list primitives.ExcaliDrawPrimitive) (s : State) : State :=
  {| self := self s; heap := h; uuid_calls := uuid_calls s; files := files s |}.

Definition with_uuid_calls (n : nat) (s : State) : State :=
  {| self := self s; heap := heap s; uuid_calls := n; files := files s |}.

Definition with_files (fs : gmap string Document) (s : State) : State :=
  {| self := self s; heap := heap s; uuid_calls := uuid_calls s; files := fs |}.

Definition with_draw_objs (objs : list ref) (sb : SketchBuilder) : SketchBuilder :=
  {| data := data sb; draw_objs := objs;
     BOX_DEFAULTS := BOX_DEFAULTS sb; LINE_DEFAULTS := LINE_DEFAULTS sb;
     TEXT_DEFAULTS := TEXT_DEFAULTS sb |}.

Definition with_elements (l : list json) (sb : SketchBuilder) : SketchBuilder :=
  let d := data sb in
  {| data := {| type_ := type_ d; version := version d; source := source d;
                elements := l; appState := appState d |};
     draw_objs := draw_objs sb;
     BOX_DEFAULTS := BOX_DEFAULTS sb; LINE_DEFAULTS := LINE_DEFAULTS sb;
     TEXT_DEFAULTS := TEXT_DEFAULTS sb |}.

Definition get_self : M SketchBuilder := fun s => Ok (self s, s).

Definition put_self (sb : SketchBuilder) : M unit := fun s => Ok (tt, with_self sb s).

(** [str(uuid.uuid4())]. *)
Definition uuid4 `{uuid.generator} : M string :=
  fun s => Ok (uuid.uuid4 (uuid_calls s), with_uuid_calls (S (uuid_calls s)) s).

(** A new object: it gets the next free position of the heap. *)
Definition alloc (p : primitives.ExcaliDrawPrimitive) : M ref :=
  fun s => Ok (length (heap s), with_heap (heap s ++ [p]) s).

(** Reading through a reference. A Python reference always points to an
    object; a position outside the heap is no reference of the program. *)
Definition deref (r : ref) : M primitives.ExcaliDrawPrimitive :=
  fun s => match heap s !! r with
           | Some p => Ok (p, s)
           | None => Raise (ReferenceError "not an object")
           end.

(** Updating the object behind a reference, in place. *)
Definition store (r : ref) (p : primitives.ExcaliDrawPrimitive) : M unit :=
  fun s => Ok (tt, with_heap (<[r:=p]> (heap s)) s).

(** Calling a constructor of [primitives]: the new object draws its id. *)
Definition construct `{uuid.generator}
    (mk : string -> primitives.ExcaliDrawPrimitive) : M ref :=
  new_id ← uuid4; alloc (mk new_id).

(** [key in d]. *)
Definition contains (d : pydict) (key : string) : bool :=
  bool_decide (is_Some (d !! key)).

(** Python refuses a call whose [**kwargs] names a parameter that already
    has a value. *)
Definition check_kwargs (params : list string) (kwargs : pydict) : M unit :=
  match list_find (fun p => is_Some (kwargs !! p)) params with
  | Some (_, p) => raise (TypeError ("got multiple values for argument " +:+ p))
  | None => mret tt
  end.

(** [d.update(other)]: the entries of [other] win. *)
Definition update (d other : pydict) : pydict := other ∪ d.

Definition initial_data : Document :=
  {| type_ := "excalidraw"; version := 1; source := "Excalidraw.py";
     elements := [];
     appState := [("viewBackgroundColor", JStr "#ffffff"); ("gridSize", JNull)] |}.

(** The builder after lines 18-36 of [__init__], before the custom defaults
    are read. *)
Definition initial_builder `{defaults.tables} : SketchBuilder :=
  {| data := initial_data;
     draw_objs := [];
     BOX_DEFAULTS := defaults.BOX_DEFAULTS;
     LINE_DEFAULTS := update defaults.BOX_DEFAULTS defaults.LINE_DEFAULTS;
     TEXT_DEFAULTS := update defaults.BOX_DEFAULTS defaults.TEXT_DEFAULTS |}.

(** [self.BOX_DEFAULTS[key] = value]. *)
Definition setitem_BOX_DEFAULTS (sb : SketchBuilder) (key : string) (value : pyval)
    : SketchBuilder :=
  {| data := data sb; draw_objs := draw_objs sb;
     BOX_DEFAULTS := <[key:=value]> (BOX_DEFAULTS sb);
     LINE_DEFAULTS := LINE_DEFAULTS sb;
     TEXT_DEFAULTS := TEXT_DEFAULTS sb |}.

(** The body of the loop over [custom_defaults.items()]. *)
Definition custom_default (sb : SketchBuilder) (item : string * pyval)
    : Result SketchBuilder :=
  let '(key, value) := item in
  let used := false in
  let '(sb, used) :=
    if contains (BOX_DEFAULTS sb) key
    then (setitem_BOX_DEFAULTS sb key value, true) else (sb, used) in
  let '(sb, used) :=
    if contains (LINE_DEFAULTS sb) key
    then (setitem_BOX_DEFAULTS sb key value, true) else (sb, used) in
  let '(sb, used) :=
    if contains (TEXT_DEFAULTS sb) key
    then (setitem_BOX_DEFAULTS sb key value, true) else (sb, used) in
  if negb used
  then Raise (Exception ("Key <" +:+ key +:+ "> not used."))
  else Ok sb.

Fixpoint custom_defaults_loop (items : list (string * pyval)) (sb : SketchBuilder)
    : Result SketchBuilder :=
  match items with
  | [] => Ok sb
  | item :: rest =>
      match custom_default sb item with
      | Ok sb' => custom_defaults_loop rest sb'
      | Raise e => Raise e
      end
  end.

(** [SketchBuilder] called with the keyword arguments [custom_defaults], in
    the order they were given. The parameter [self] has its value already:
    Python refuses a keyword argument of that name before the body runs. *)
Definition __init__ `{defaults.tables} (custom_defaults : list (string * pyval))
    : Result SketchBuilder :=
  if bool_decide ("self" ∈ custom_defaults.*1)
  then Raise (TypeError "got multiple values for argument self")
  else custom_defaults_loop custom_defaults initial_builder.

(** The state in which a builder starts its life. *)
Definition new_state (sb : SketchBuilder) : State :=
  {| self := sb; heap := []; uuid_calls := 0; files := ∅ |}.

Section Methods.
Context {tables : defaults.tables} {gen : uuid.generator} {meths : primitives.methods}.
Context {libm : math.libm} {fs : os.filesystem}.

Definition add_element (element : ref) : M ref :=
  fun s =>
    Ok (element, with_self (with_draw_objs (draw_objs (self s) ++ [element]) (self s)) s).

(** [Rectangle(x, y, width=100, height=100, **kwargs)]; a caller that leaves
    width or height out passes 100. *)
Definition Rectangle (x y width height : R) (kwargs : pydict) : M ref :=
  check_kwargs ["self"; "x"; "y"; "width"; "height"] kwargs;;
  sb ← get_self;
  shape ← construct (primitives.Shape "rectangle" (BOX_DEFAULTS sb) x y width height kwargs);
  add_element shape.

Definition Diamond (x y width height : R) (kwargs : pydict) : M ref :=
  check_kwargs ["self"; "x"; "y"; "width"; "height"] kwargs;;
  sb ← get_self;
  shape ← construct (primitives.Shape "diamond" (BOX_DEFAULTS sb) x y width height kwargs);
  add_element shape.

Definition Ellipse (x y width height : R) (kwargs : pydict) : M ref :=
  check_kwargs ["self"; "x"; "y"; "width"; "height"] kwargs;;
  sb ← get_self;
  shape ← construct (primitives.Shape "ellipse" (BOX_DEFAULTS sb) x y width height kwargs);
  add_element shape.

Definition Text (text : string) (x y : R) (kwargs : pydict) : M ref :=
  check_kwargs ["self"; "text"; "x"; "y"] kwargs;;
  sb ← get_self;
  txt ← construct (primitives.Text text (TEXT_DEFAULTS sb) x y kwargs);
  add_element txt.

Definition Line (start_pt end_pt : R * R) (kwargs : pydict) : M ref :=
  check_kwargs ["self"; "start_pt"; "end_pt"] kwargs;;
  sb ← get_self;
  line ← construct (primitives.Line "line" (LINE_DEFAULTS sb) start_pt end_pt kwargs);
  add_element line.

Definition Arrow (start_pt end_pt : R * R) (kwargs : pydict) : M ref :=
  check_kwargs ["self"; "start_pt"; "end_pt"] kwargs;;
  let kwargs := <["endArrowhead" := PyStr "arrow"]> kwargs in
  sb ← get_self;
  arrow ← construct (primitives.Line "arrow" (LINE_DEFAULTS sb) start_pt end_pt kwargs);
  add_element arrow;;
  mret arrow.

Definition DoubleArrow (start_pt end_pt : R * R) (kwargs : pydict) : M ref :=
  check_kwargs ["self"; "start_pt"; "end_pt"] kwargs;;
  let kwargs := <["startArrowhead" := PyStr "arrow"]> kwargs in
  Arrow start_pt end_pt kwargs.

(** [s.split(sep)] for a separator of one character: the pieces between the
    occurrences of [sep]; never an empty list. *)
Fixpoint split (sep : Ascii.ascii) (s : string) : list string :=
  match s with
  | EmptyString => [EmptyString]
  | String c rest =>
      if Ascii.eqb c sep then EmptyString :: split sep rest
      else match split sep rest with
           | piece :: pieces => String c piece :: pieces
           | [] => [String c EmptyString]
           end
  end.

(** [l[-1]]. *)
Definition getitem_last (l : list string) : M string :=
  match last l with
  | Some item => mret item
  | None => raise (IndexError "list index out of range")
  end.

(** Lines 122-123: the path the file is written under. *)
Definition export_path (save_path : string) : M string :=
  extension ← getitem_last (split "."%char save_path);
  if bool_decide (extension ≠ "excalidraw")
  then mret (save_path +:+ ".excalidraw")
  else mret save_path.

(** [self.data['elements'].append(json_obj)]. *)
Definition append_element (json_obj : json) : M unit :=
  fun s =>
    Ok (tt, with_self
              (with_elements (elements (data (self s)) ++ [json_obj]) (self s)) s).

(** The loop of lines 118-120 over [self.draw_objs]. *)
Fixpoint export_elements (objs : list ref) : M unit :=
  match objs with
  | [] => mret tt
  | element :: rest =>
      obj ← deref element;
      let json_obj := primitives.export obj in
      append_element json_obj;;
      export_elements rest
  end.

(** [json.dump(self.data, open(save_path, "w"))]: [open] raises an
    [OSError] when the file cannot be opened for writing; otherwise the file
    holds the document. Its layout as text is not modelled. *)
Definition write_file (save_path : string) (d : Document) : M unit :=
  fun s =>
    if os.writable save_path
    then Ok (tt, with_files (<[save_path := d]> (files s)) s)
    else Raise (OSError ("cannot open " +:+ save_path)).

(** A method without a [return] statement returns [None], here [tt]. *)
Definition export_to_file (save_path : string) : M unit :=
  sb ← get_self;
  export_elements (draw_objs sb);;
  save_path ← export_path save_path;
  sb ← get_self;
  write_file save_path (data sb).

(** Lines 147-148, on the angle [theta] of line 146: the two
    normalizations, computed on floats. *)
Definition normalized_angles (theta : R) : R * R :=
  let theta :=
    float_sub (py_mod (float_add theta math.pi) (float_mul 2 math.pi)) math.pi in
  let inverted_theta :=
    float_sub (py_mod theta (float_mul 2 math.pi)) math.pi in
  (theta, inverted_theta).

(** Lines 142-148: the angle handed to [start.get_edge_midpoint] and the one
    handed to [end.get_edge_midpoint]. [math.atan2] works on floats: the
    differences of lines 144-145 reach it rounded, by the subtraction when
    the coordinates are floats, by the conversion of its arguments when they
    are [int]s. *)
Definition binding_angles (center_start center_end : R * R) : R * R :=
  let dx := float_sub center_end.1 center_start.1 in
  let dy := float_sub center_end.2 center_start.2 in
  let theta := math.atan2 dy dx in
  normalized_angles theta.

(** [line.set_start_binding(target, padding=padding)] on objects of the
    heap. *)
Definition set_start_binding (line target : ref) (padding : R) : M unit :=
  line_obj ← deref line;
  target_obj ← deref target;
  store line (primitives.set_start_binding line_obj target_obj padding).

Definition set_end_binding (line target : ref) (padding : R) : M unit :=
  line_obj ← deref line;
  target_obj ← deref target;
  store line (primitives.set_end_binding line_obj target_obj padding).

(** A callable such as [self.Arrow]: two points and keyword arguments. *)
Definition ArrowFactory : Type := R * R -> R * R -> pydict -> M ref.

(** A callable such as [self.Rectangle], called with the keywords x, y, width
    and height, and further keyword arguments. *)
Definition ShapeFactory : Type := R -> R -> R -> R -> pydict -> M ref.

(** [create_binding_arrows(start, end, arrow=None, padding=10, **kwargs)].
    The body has no [return] statement: the call returns [None], here [tt]. *)
Definition create_binding_arrows (start end_ : ref) (arrow : option ArrowFactory)
    (padding : R) (kwargs : pydict) : M unit :=
  let arrow := default Arrow arrow in
  start_obj ← deref start;
  end_obj ← deref end_;
  let center_start := primitives.center start_obj in
  let center_end := primitives.center end_obj in
  let '(theta, inverted_theta) := binding_angles center_start center_end in
  let start_pt := primitives.get_edge_midpoint start_obj theta padding in
  let end_pt := primitives.get_edge_midpoint end_obj inverted_theta padding in
  line ← arrow start_pt end_pt kwargs;
  set_start_binding line start padding;;
  set_end_binding line end_ padding.

(** [element.groupIds.append(group_id)]. *)
Definition groupIds_append (element : ref) (group_id : string) : M unit :=
  obj ← deref element;
  store element (primitives.append_groupId obj group_id).

(** [create_bounding_element(element, function=None, padding=10, **kwargs)].
    The call of [function] names x, y, width and height itself, so [kwargs]
    may not name them again. *)
Definition create_bounding_element (element : ref) (function : option ShapeFactory)
    (padding : R) (kwargs : pydict) : M ref :=
  let function := default Rectangle function in
  obj ← deref element;
  let element_center := primitives.center obj in
  let new_x := element_center.1 in
  let new_y := element_center.2 in
  let new_width := (primitives.width obj + 2 * padding)%R in
  let new_height := (primitives.height obj + 2 * padding)%R in
  check_kwargs ["x"; "y"; "width"; "height"] kwargs;;
  bounding_elem ← function new_x new_y new_width new_height kwargs;
  group_id ← uuid4;
  groupIds_append element group_id;;
  groupIds_append bounding_elem group_id;;
  mret bounding_elem.

(** A keyword argument used as a number. *)
Definition as_number (v : pyval) : M R :=
  match v with
  | PyNum r => mret r
  | PyBool b => mret (if b then 1%R else 0%R)
  | PyNone | PyStr _ => raise (TypeError "unsupported operand type(s)")
  end.

(** [TextBox(text, x, y, txt_kwargs=None, rect_kwargs=None)]. The last line
    spreads [rect_kwargs] over the parameters of [create_bounding_element]:
    a key [padding] sets the padding, the other names already have a
    value. *)
Definition TextBox (text : string) (x y : R) (txt_kwargs rect_kwargs : option pydict)
    : M ref :=
  let txt_kwargs := default ∅ txt_kwargs in
  let rect_kwargs := default ∅ rect_kwargs in
  txt ← Text text x y txt_kwargs;
  check_kwargs ["self"; "element"; "function"] rect_kwargs;;
  padding ← match rect_kwargs !! "padding" with
            | Some v => as_number v
            | None => mret 10%R
            end;
  create_bounding_element txt (Some Rectangle) padding (delete "padding" rect_kwargs).

End Methods.

(** ** Notions the properties are stated with *)

(** The state after a new primitive [p] drew its id, was put in the heap and
    was registered with the builder. *)
Definition registered (p : primitives.ExcaliDrawPrimitive) (s : State) : State :=
  {| self := with_draw_objs (draw_objs (self s) ++ [length (heap s)]) (self s);
     heap := heap s ++ [p];
     uuid_calls := S (uuid_calls s);
     files := files s |}.

(** A key that at least one of the three profiles of the builder has. *)
Definition recognized (sb : SketchBuilder) (key : string) : Prop :=
  is_Some (BOX_DEFAULTS sb !! key) \/ is_Some (LINE_DEFAULTS sb !! key)
  \/ is_Some (TEXT_DEFAULTS sb !! key).

(** [entries] holds the serialized entry of each reference of [objs], in the
    order of [objs]. *)
Definition serialized {meths : primitives.methods}
    (h : list primitives.ExcaliDrawPrimitive)
    (objs : list ref) (entries : list json) : Prop :=
  Forall2 (fun r entry => exists obj, h !! r = Some obj /\ entry = primitives.export obj)
    objs entries.

(** Every registered primitive is an object of the heap. *)
Definition live_objs (s : State) : Prop :=
  Forall (fun r => is_Some (heap s !! r)) (draw_objs (self s)).

(** [s.endswith(suffix)]. *)
Fixpoint endswith (s suffix : string) : bool :=
  String.eqb s suffix ||
  match s with
  | EmptyString => false
  | String _ rest => endswith rest suffix
  end.

(** ** A small instance of the parameters

    Concrete tables, identifiers and primitive methods on which the model
    runs; they stand for no file of the package. *)
Module demo.

#[global] Instance tables : defaults.tables := {|
  defaults.BOX_DEFAULTS :=
    <["strokeColor" := PyStr "#000000"]> (<["opacity" := PyNum 100]> ∅);
  defaults.LINE_DEFAULTS :=
    <["startArrowhead" := PyNone]> (<["endArrowhead" := PyNone]> ∅);
  defaults.TEXT_DEFAULTS :=
    <["fontSize" := PyNum 20]> ∅
|}.

(** The n-th identifier is a run of n+1 letters. *)
Fixpoint nth_id (n : nat) : string :=
  match n with
  | O => "u"
  | S m => String "u" (nth_id m)
  end.

#[global] Instance generator : uuid.generator := {| uuid.uuid4 := nth_id |}.

#[global] Instance methods : primitives.methods := {|
  primitives.text_extent := fun content _ =>
    (10 * INR (String.length content), 25)%R;
  primitives.get_edge_midpoint := fun p angle padding =>
    (primitives.x p + (primitives.width p / 2 + padding) * cos angle,
     primitives.y p + (primitives.height p / 2 + padding) * sin angle)%R;
  primitives.export := fun p =>
    JObj [("id", JStr (primitives.id p));
          ("type", JStr (primitives.excal_type p));
          ("x", JNum (primitives.x p)); ("y", JNum (primitives.y p));
          ("width", JNum (primitives.width p));
          ("height", JNum (primitives.height p));
          ("groupIds", JArr (JStr <$> primitives.groupIds p))]
|}.

(** The angle of the point (x, y) over the reals, in (-pi, pi]; 0 at the
    origin. *)
Definition arctan2 (y x : R) : R :=
  if Rlt_dec 0 x then atan (y / x)
  else if Rlt_dec x 0 then
    (if Rle_dec 0 y then atan (y / x) + PI else atan (y / x) - PI)%R
  else if Rlt_dec 0 y then (PI / 2)%R
  else if Rlt_dec y 0 then (- (PI / 2))%R
  else 0%R.

(** A C library whose [atan2] is that angle rounded to binary64, and kept
    between [-math.pi] and [math.pi]. *)
#[global, refine] Instance libm : math.libm := {|
  math.atan2 := fun y x =>
    Rmax (- math.pi) (Rmin math.pi (binary64.round (arctan2 y x)))
|}.
Proof.
  - intros y x. split; [apply Rmax_l|].
    apply Rmax_lub; [unfold math.pi; lra|apply Rmin_l].
  - assert (arctan2 0 0 = 0%R) as ->.
    { unfold arctan2. destruct (Rlt_dec 0 0); [lra|]. destruct (Rlt_dec 0 0); [lra|].
      reflexivity. }
    assert (binary64.round 0 = 0%R) as ->.
    { unfold binary64.round, binary64.Znearest_even. rewrite Rmult_0_l.
      rewrite (ZfloorZ 0). destruct (Rlt_dec (0 - 0) (/ 2)); lra. }
    unfold math.pi. rewrite Rmin_right by lra. apply Rmax_right. lra.
Defined.

(** A process that may write in its working directory and below it: an
    absolute path cannot be opened, and neither can the empty path. *)
#[global] Instance filesystem : os.filesystem := {|
  os.writable := fun path =>
    match path with
    | EmptyString => false
    | String c _ => negb (Ascii.eqb c "/")
    end
|}.

(** The builder made without custom defaults. *)
Definition builder : SketchBuilder := initial_builder.

(** Two rectangles, side by side. *)
Definition rect1 : primitives.ExcaliDrawPrimitive :=
  primitives.Shape "rectangle" (BOX_DEFAULTS builder) 100 100 50 50 ∅ (nth_id 0).

Definition rect2 : primitives.ExcaliDrawPrimitive :=
  primitives.Shape "rectangle" (BOX_DEFAULTS builder) 300 100 50 50 ∅ (nth_id 1).

(** The state after [Rectangle(100, 100, 50, 50)] and
    [Rectangle(300, 100, 50, 50)] on a new builder. *)
Definition scene : State := registered rect2 (registered rect1 (new_state builder)).

(** Keyword arguments of a caller who asks for a dot at the end of a line. *)
Definition dot_kwargs : pydict := <["endArrowhead" := PyStr "dot"]> ∅.

(** Custom defaults that name a key of the line profile. *)
Definition dot_defaults : list (string * pyval) := [("endArrowhead", PyStr "dot")].

End demo.

(** ** Programs that use the builder *)

(** The methods of the builder that fit the [function] parameter of
    [create_bounding_element]. *)
Inductive shape_factory : Type := UseRectangle | UseDiamond | UseEllipse.

(** The methods of the builder that fit the [arrow] parameter of
    [create_binding_arrows]. *)
Inductive line_factory : Type := UseLine | UseArrow | UseDoubleArrow.

(** A call of a creating, composing or exporting method of a builder, with
    its arguments. A factory argument is one of the builder's own methods. *)
Inductive call : Type :=
| CallRectangle (x y width height : R) (kwargs : pydict)
| CallDiamond (x y width height : R) (kwargs : pydict)
| CallEllipse (x y width height : R) (kwargs : pydict)
| CallText (text : string) (x y : R) (kwargs : pydict)
| CallLine (start_pt end_pt : R * R) (kwargs : pydict)
| CallArrow (start_pt end_pt : R * R) (kwargs : pydict)
| CallDoubleArrow (start_pt end_pt : R * R) (kwargs : pydict)
| CallTextBox (text : string) (x y : R) (txt_kwargs rect_kwargs : option pydict)
| CallBoundingElement (element : ref) (function : option shape_factory)
    (padding : R) (kwargs : pydict)
| CallBindingArrows (start end_ : ref) (arrow : option line_factory)
    (padding : R) (kwargs : pydict)
| CallExportToFile (save_path : string).

Section Calls.
Context {gen : uuid.generator} {meths : primitives.methods}.
Context {libm : math.libm} {fs : os.filesystem}.

Definition shape_method (f : shape_factory) : ShapeFactory :=
  match f with
  | UseRectangle => Rectangle
  | UseDiamond => Diamond
  | UseEllipse => Ellipse
  end.

Definition line_method (f : line_factory) : ArrowFactory :=
  match f with
  | UseLine => Line
  | UseArrow => Arrow
  | UseDoubleArrow => DoubleArrow
  end.

Definition shape_kind (f : shape_factory) : string :=
  match f with
  | UseRectangle => "rectangle"
  | UseDiamond => "diamond"
  | UseEllipse => "ellipse"
  end.

Definition line_kind (f : line_factory) : string :=
  match f with UseLine => "line" | UseArrow | UseDoubleArrow => "arrow" end.

(** The keyword arguments a line method hands to the constructor. *)
Definition line_kwargs (f : line_factory) (kwargs : pydict) : pydict :=
  match f with
  | UseLine => kwargs
  | UseArrow => <["endArrowhead" := PyStr "arrow"]> kwargs
  | UseDoubleArrow =>
      <["endArrowhead" := PyStr "arrow"]> (<["startArrowhead" := PyStr "arrow"]> kwargs)
  end.

(** The padding [TextBox] hands to [create_bounding_element]: the entry
    [padding] of [rect_kwargs] when there is one, 10 otherwise. *)
Definition textbox_padding (rect_kwargs : pydict) : option R :=
  match rect_kwargs !! "padding" with
  | None => Some 10%R
  | Some (PyNum r) => Some r
  | Some (PyBool b) => Some (if b then 1%R else 0%R)
  | Some PyNone | Some (PyStr _) => None
  end.

(** Making the call and dropping what it returns. *)
Definition run (c : call) : M unit :=
  match c with
  | CallRectangle x y width height kwargs => Rectangle x y width height kwargs;; mret tt
  | CallDiamond x y width height kwargs => Diamond x y width height kwargs;; mret tt
  | CallEllipse x y width height kwargs => Ellipse x y width height kwargs;; mret tt
  | CallText text x y kwargs => Text text x y kwargs;; mret tt
  | CallLine start_pt end_pt kwargs => Line start_pt end_pt kwargs;; mret tt
  | CallArrow start_pt end_pt kwargs => Arrow start_pt end_pt kwargs;; mret tt
  | CallDoubleArrow start_pt end_pt kwargs => DoubleArrow start_pt end_pt kwargs;; mret tt
  | CallTextBox text x y txt_kwargs rect_kwargs =>
      TextBox text x y txt_kwargs rect_kwargs;; mret tt
  | CallBoundingElement element function padding kwargs =>
      create_bounding_element element (shape_method <$> function) padding kwargs;; mret tt
  | CallBindingArrows start end_ arrow padding kwargs =>
      create_binding_arrows start end_ (line_method <$> arrow) padding kwargs
  | CallExportToFile save_path => export_to_file save_path
  end.

(** [r.groupIds.append(g)] on a heap; a position outside the heap is no
    reference. *)
Definition append_group (r : ref) (g : string)
    (h : list primitives.ExcaliDrawPrimitive) : list primitives.ExcaliDrawPrimitive :=
  match h !! r with
  | Some obj => <[r := primitives.append_groupId obj g]> h
  | None => h
  end.

(** The state after lines 178-180: an identifier is drawn and appended to the
    group ids of [element], then of [bounding_elem]. *)
Definition grouped (element bounding_elem : ref) (s : State) : State :=
  let g := uuid.uuid4 (uuid_calls s) in
  {| self := self s;
     heap := append_group bounding_elem g (append_group element g (heap s));
     uuid_calls := S (uuid_calls s);
     files := files s |}.

(** The state after the document was extended by [entries] and written to
    the file [written]. *)
Definition exported (entries : list json) (written : string) (s : State) : State :=
  let sb := with_elements (elements (data (self s)) ++ entries) (self s) in
  with_files (<[written := data sb]> (files s)) (with_self sb s).

(** The bindings a primitive holds. *)
Definition bindings (p : primitives.ExcaliDrawPrimitive) : list primitives.Binding :=
  option_list (primitives.startBinding p) ++ option_list (primitives.endBinding p).

(** Every binding of [p] names the id of a primitive of the heap [h]. *)
Definition bindings_resolve (h : list primitives.ExcaliDrawPrimitive)
    (p : primitives.ExcaliDrawPrimitive) : Prop :=
  Forall (fun b => primitives.elementId b ∈ primitives.id <$> h) (bindings p).

(** What a creating or composing call is made of: a new primitive draws its
    id and is registered; two objects get a new group id. *)
Inductive effect (s : State) : State -> Prop :=
| effect_registered (p : primitives.ExcaliDrawPrimitive) :
    primitives.id p = uuid.uuid4 (uuid_calls s) ->
    bindings_resolve (heap s) p ->
    effect s (registered p s)
| effect_grouped (element bounding_elem : ref) :
    is_Some (heap s !! element) ->
    is_Some (heap s !! bounding_elem) ->
    effect s (grouped element bounding_elem s).

(** The registered references are the positions of the heap, in order. *)
Definition all_registered (s : State) : Prop :=
  draw_objs (self s) = seq 0 (length (heap s)).

(** The ids of the primitives are pairwise distinct and were all drawn. *)
Definition ids_drawn (s : State) : Prop :=
  NoDup (primitives.id <$> heap s) /\
  Forall (fun i => exists k, k < uuid_calls s /\ i = uuid.uuid4 k)
    (primitives.id <$> heap s).

(** Every binding of every primitive names the id of a primitive. *)
Definition bindings_ok (s : State) : Prop :=
  Forall (bindings_resolve (heap s)) (heap s).


(** The states a program reaches that makes a builder and calls its
    methods. *)
Inductive reachable {tables : defaults.tables} : State -> Prop :=
| reachable_new (custom_defaults : list (string * pyval)) (sb : SketchBuilder) :
    __init__ custom_defaults = Ok sb -> reachable (new_state sb)
| reachable_call (s s' : State) (c : call) :
    reachable s -> run c s = Ok (tt, s') -> reachable s'.

End Calls.

(** ** Further concrete data *)
Module scenario.

(** A padding of 5 for the rectangle of a text box. *)
Definition padding_kwargs : pydict := <["padding" := PyNum 5]> ∅.

(** A width among the keyword arguments. *)
Definition width_kwargs : pydict := <["width" := PyNum 5]> ∅.

(** A custom default for a key of the box table. *)
Definition red_defaults : list (string * pyval) := [("strokeColor", PyStr "#ff0000")].

(** A custom default the tables know, before one they do not. *)
Definition known_defaults : list (string * pyval) := [("opacity", PyNum 50)].

(** The arrow [create_binding_arrows] builds between the two rectangles of
    the scene. *)
Definition arrow01 : primitives.ExcaliDrawPrimitive :=
  let angles :=
    binding_angles (primitives.center demo.rect1) (primitives.center demo.rect2) in
  primitives.set_end_binding
    (primitives.set_start_binding
       (primitives.Line "arrow" (LINE_DEFAULTS demo.builder)
          (primitives.get_edge_midpoint demo.rect1 angles.1 10)
          (primitives.get_edge_midpoint demo.rect2 angles.2 10)
          (<["endArrowhead" := PyStr "arrow"]> ∅) (demo.nth_id 2))
       demo.rect1 10)
    demo.rect2 10.

(** The scene with that arrow. *)
Definition bound_scene : State := registered arrow01 demo.scene.

End scenario.

(** * Properties *)

(** ** Binary64 arithmetic *)

Section Binary64.
Import binary64.
Local Open Scope R_scope.

(** *** Powers of 2 and exponents *)

Lemma Rabs_le_bounds (x a : R) : Rabs x <= a -> - a <= x <= a.
Proof. unfold Rabs. destruct (Rcase_abs x); lra. Qed.

Lemma bpow_gt_0 e : 0 < bpow e.
Proof. apply powerRZ_lt. lra. Qed.

Lemma bpow_add e1 e2 : bpow (e1 + e2) = bpow e1 * bpow e2.
Proof. apply powerRZ_add. lra. Qed.

Lemma bpow_opp e : bpow (- e) = / bpow e.
Proof. apply powerRZ_neg'. Qed.

Lemma bpow_IZR (k : Z) : (0 <= k)%Z -> bpow k = IZR (2 ^ k).
Proof.
  intros Hk. unfold bpow. rewrite <- (Z2Nat.id k Hk) at 1.
  rewrite <- pow_powerRZ, pow_IZR. by rewrite Z2Nat.id.
Qed.

Lemma bpow_cancel e : bpow e * bpow (- e) = 1.
Proof. rewrite <- bpow_add, Z.add_opp_diag_r. reflexivity. Qed.

Lemma bpow_lt e1 e2 : (e1 < e2)%Z -> bpow e1 < bpow e2.
Proof.
  intros Hlt. replace e2 with (e1 + (e2 - e1))%Z by lia.
  rewrite bpow_add. pose proof (bpow_gt_0 e1).
  rewrite (bpow_IZR (e2 - e1)) by lia.
  assert (2 <= 2 ^ (e2 - e1))%Z as Hge.
  { change 2%Z with (2 ^ 1)%Z at 1. apply Z.pow_le_mono_r; lia. }
  apply IZR_le in Hge. rewrite <- (Rmult_1_r (bpow e1)) at 1.
  apply Rmult_lt_compat_l; lra.
Qed.

Lemma bpow_le e1 e2 : (e1 <= e2)%Z -> bpow e1 <= bpow e2.
Proof.
  intros Hle. destruct (Z.eq_dec e1 e2) as [->|Hne]; [lra|].
  left. apply bpow_lt. lia.
Qed.

Lemma bpow_lt_inv e1 e2 : bpow e1 < bpow e2 -> (e1 < e2)%Z.
Proof.
  intros Hlt. destruct (Z_lt_le_dec e1 e2) as [|Hle]; [done|].
  apply bpow_le in Hle. lra.
Qed.

Lemma bpow_exp e : bpow e = exp (IZR e * ln 2).
Proof. unfold bpow. rewrite powerRZ_Rpower by lra. reflexivity. Qed.

Lemma ln2_gt_0 : 0 < ln 2.
Proof. rewrite <- ln_1. apply ln_increasing; lra. Qed.

(** [mag x] is the exponent of the power of 2 above [|x|]. *)
Lemma mag_bounds x : x <> 0 -> bpow (mag x - 1) <= Rabs x < bpow (mag x).
Proof.
  intros Hx. pose proof ln2_gt_0 as Hln2.
  assert (0 < Rabs x) as Habs by (by apply Rabs_pos_lt).
  unfold mag. set (L := ln (Rabs x) / ln 2).
  pose proof (Zfloor_bound L) as [Hlo Hhi].
  assert (ln (Rabs x) = L * ln 2) as HL by (unfold L; field; lra).
  assert (Rabs x = exp (L * ln 2)) as Hex by (rewrite <- HL; symmetry; by apply exp_ln).
  rewrite !bpow_exp.
  replace (Zfloor L + 1 - 1)%Z with (Zfloor L) by lia.
  rewrite plus_IZR. clearbody L. rewrite Hex. split.
  - destruct Hlo as [Hlo|Hlo].
    + left. apply exp_increasing. nra.
    + right. f_equal. rewrite Hlo. reflexivity.
  - apply exp_increasing. nra.
Qed.

Lemma mag_unique x e : bpow (e - 1) <= Rabs x < bpow e -> mag x = e.
Proof.
  intros [Hlo Hhi]. pose proof (bpow_gt_0 (e - 1)).
  assert (x <> 0) as Hx by (intros ->; rewrite Rabs_R0 in Hlo; lra).
  destruct (mag_bounds x Hx) as [Hlo' Hhi'].
  assert (mag x - 1 < e)%Z by (apply bpow_lt_inv; lra).
  assert (e - 1 < mag x)%Z by (apply bpow_lt_inv; lra).
  lia.
Qed.

Lemma mag_le x y : x <> 0 -> Rabs x <= Rabs y -> (mag x <= mag y)%Z.
Proof.
  intros Hx Hle.
  assert (0 < Rabs x) by (by apply Rabs_pos_lt).
  assert (y <> 0) as Hy by (intros ->; rewrite Rabs_R0 in Hle; lra).
  destruct (mag_bounds x Hx), (mag_bounds y Hy).
  assert (mag x - 1 < mag y)%Z by (apply bpow_lt_inv; lra). lia.
Qed.

Lemma mag_opp x : mag (- x) = mag x.
Proof. unfold mag. by rewrite Rabs_Ropp. Qed.

Lemma cexp_opp x : cexp (- x) = cexp x.
Proof. unfold cexp. by rewrite mag_opp. Qed.

(** *** Rounding to the nearest integer *)

Lemma Znearest_even_IZR z : Znearest_even (IZR z) = z.
Proof.
  unfold Znearest_even. rewrite ZfloorZ.
  replace (IZR z - IZR z) with 0 by lra.
  destruct (Rlt_dec 0 (/ 2)); [done|lra].
Qed.

Lemma Znearest_even_floor x :
  (Zfloor x <= Znearest_even x <= Zfloor x + 1)%Z.
Proof.
  unfold Znearest_even.
  destruct (Rlt_dec _ _); [lia|]. destruct (Rlt_dec _ _); [lia|].
  destruct (Z.even _); lia.
Qed.

Lemma Znearest_even_le x y : x <= y -> (Znearest_even x <= Znearest_even y)%Z.
Proof.
  intros Hle. pose proof (Zfloor_le x y Hle) as Hfl.
  destruct (Z.eq_dec (Zfloor x) (Zfloor y)) as [Heq|Hne].
  - unfold Znearest_even. rewrite <- Heq.
    repeat destruct (Rlt_dec _ _); try destruct (Z.even _); lia || lra.
  - pose proof (Znearest_even_floor x). pose proof (Znearest_even_floor y). lia.
Qed.

Lemma Znearest_even_error x : Rabs (IZR (Znearest_even x) - x) <= / 2.
Proof.
  unfold Znearest_even. pose proof (Zfloor_bound x) as [Hlo Hhi].
  repeat destruct (Rlt_dec _ _); try destruct (Z.even _); rewrite ?plus_IZR;
    apply Rabs_le; lra.
Qed.

Lemma Znearest_even_opp x : Znearest_even (- x) = (- Znearest_even x)%Z.
Proof.
  destruct (Req_dec x (IZR (Zfloor x))) as [Hint|Hnint].
  { rewrite Hint, <- opp_IZR, !Znearest_even_IZR. reflexivity. }
  pose proof (Zfloor_bound x) as [Hlo Hhi].
  assert (Zfloor (- x) = (- Zfloor x - 1)%Z) as Hf.
  { apply Zfloor_eq. rewrite minus_IZR, opp_IZR. lra. }
  unfold Znearest_even. rewrite Hf, minus_IZR, opp_IZR.
  assert (Z.even (- Zfloor x - 1) = negb (Z.even (Zfloor x))) as Hev.
  { replace (- Zfloor x - 1)%Z with (- (Z.succ (Zfloor x)))%Z by lia.
    rewrite Z.even_opp, Z.even_succ. by rewrite <- Z.negb_even. }
  rewrite Hev. clear Hev.
  repeat destruct (Rlt_dec _ _); try (exfalso; lra);
    try destruct (Z.even (Zfloor x)); simpl; lia.
Qed.

(** *** Rounding to binary64 *)

Lemma round_0 : round 0 = 0.
Proof.
  unfold round. rewrite Rmult_0_l.
  rewrite (Znearest_even_IZR 0). lra.
Qed.

Lemma round_opp x : round (- x) = - round x.
Proof.
  unfold round. rewrite cexp_opp.
  replace (- x * bpow (- cexp x)) with (- (x * bpow (- cexp x))) by lra.
  rewrite Znearest_even_opp, opp_IZR. lra.
Qed.

Lemma round_ge_0 x : 0 <= x -> 0 <= round x.
Proof.
  intros Hx. unfold round. pose proof (bpow_gt_0 (cexp x)).
  pose proof (bpow_gt_0 (- cexp x)).
  apply Rmult_le_pos; [|lra]. apply IZR_le.
  rewrite <- (Znearest_even_IZR 0). apply Znearest_even_le. nra.
Qed.

Lemma cexp_le x y : x <> 0 -> Rabs x <= Rabs y -> (cexp x <= cexp y)%Z.
Proof. intros Hx Hle. unfold cexp. pose proof (mag_le x y Hx Hle). lia. Qed.

Lemma round_le_pos x y : 0 < x -> x <= y -> round x <= round y.
Proof.
  intros Hx Hle.
  assert (x <> 0) as Hx0 by lra. assert (y <> 0) as Hy0 by lra.
  assert (Rabs x <= Rabs y) as Habs by (rewrite !Rabs_pos_eq by lra; lra).
  pose proof (cexp_le x y Hx0 Habs) as Hc.
  destruct (Z.eq_dec (cexp x) (cexp y)) as [Heq|Hne].
  - unfold round. rewrite <- Heq. pose proof (bpow_gt_0 (cexp x)).
    pose proof (bpow_gt_0 (- cexp x)).
    apply Rmult_le_compat_r; [lra|]. apply IZR_le, Znearest_even_le.
    apply Rmult_le_compat_r; lra.
  - assert (cexp x < cexp y)%Z as Hlt by lia.
    assert (cexp y = mag y - 53)%Z as Hcy by (unfold cexp in *; lia).
    assert (mag x <= mag y - 1)%Z as Hmag by (unfold cexp in *; lia).
    destruct (mag_bounds x Hx0) as [_ Hxhi], (mag_bounds y Hy0) as [Hylo _].
    rewrite Rabs_pos_eq in Hxhi, Hylo by lra.
    pose proof (bpow_le _ _ Hmag) as Hb.
    apply (Rle_trans _ (bpow (mag y - 1))).
    + unfold round. set (k := (mag y - 1 - cexp x)%Z).
      assert (0 <= k)%Z by (unfold k; lia).
      replace (bpow (mag y - 1)) with (IZR (2 ^ k) * bpow (cexp x)).
      2:{ rewrite <- bpow_IZR, <- bpow_add by done. f_equal. unfold k. lia. }
      pose proof (bpow_gt_0 (cexp x)). pose proof (bpow_gt_0 (- cexp x)).
      apply Rmult_le_compat_r; [lra|]. apply IZR_le.
      rewrite <- (Znearest_even_IZR (2 ^ k)). apply Znearest_even_le.
      rewrite <- bpow_IZR by done. unfold k.
      replace (mag y - 1 - cexp x)%Z with ((mag y - 1) + - cexp x)%Z by lia.
      rewrite bpow_add. apply Rmult_le_compat_r; lra.
    + unfold round. rewrite Hcy.
      replace (bpow (mag y - 1)) with (IZR (2 ^ 52) * bpow (mag y - 53)).
      2:{ rewrite <- bpow_IZR, <- bpow_add by lia. f_equal. lia. }
      pose proof (bpow_gt_0 (mag y - 53)). pose proof (bpow_gt_0 (- (mag y - 53))).
      apply Rmult_le_compat_r; [lra|]. apply IZR_le.
      rewrite <- (Znearest_even_IZR (2 ^ 52)) at 1. apply Znearest_even_le.
      rewrite <- bpow_IZR by lia.
      replace 52%Z with ((mag y - 1) + - (mag y - 53))%Z at 1 by lia.
      rewrite bpow_add. apply Rmult_le_compat_r; lra.
Qed.

(** Rounding is monotone. *)
Lemma round_le x y : x <= y -> round x <= round y.
Proof.
  intros Hle.
  destruct (Rlt_dec 0 x) as [Hx|Hx]; [by apply round_le_pos|].
  destruct (Rle_dec 0 y) as [Hy|Hy].
  - apply (Rle_trans _ 0); [|by apply round_ge_0].
    assert (0 <= round (- x)) as H0 by (apply round_ge_0; lra).
    rewrite round_opp in H0. lra.
  - assert (round (- y) <= round (- x)) as H0 by (apply round_le_pos; lra).
    rewrite !round_opp in H0. lra.
Qed.

(** A number m * 2^e with less than 53 bits in m is a binary64 number:
    rounding keeps it. *)
Lemma round_generic (m e : Z) :
  (Z.abs m < 2 ^ 53)%Z -> (-1074 <= e)%Z -> round (IZR m * bpow e) = IZR m * bpow e.
Proof.
  intros Hm He. destruct (Z.eq_dec m 0%Z) as [->|Hm0].
  { rewrite Rmult_0_l. apply round_0. }
  set (x := IZR m * bpow e). pose proof (bpow_gt_0 e).
  assert (x <> 0) as Hx.
  { unfold x. apply Rmult_integral_contrapositive_currified; [|lra].
    by apply not_0_IZR. }
  assert (cexp x <= e)%Z as Hc.
  { destruct (mag_bounds x Hx) as [Hlo _].
    assert (Rabs x < bpow (e + 53)) as Hhi.
    { unfold x. rewrite Rabs_mult, (Rabs_pos_eq (bpow e)) by lra.
      rewrite bpow_add, (bpow_IZR 53) by lia. rewrite <- abs_IZR.
      apply IZR_lt in Hm. rewrite (Rmult_comm (bpow e)).
      apply Rmult_lt_compat_r; lra. }
    assert (mag x - 1 < e + 53)%Z by (apply bpow_lt_inv; lra).
    unfold cexp. lia. }
  unfold round. set (k := (e - cexp x)%Z).
  assert (x * bpow (- cexp x) = IZR (m * 2 ^ k)) as ->.
  { unfold x. rewrite mult_IZR, <- (bpow_IZR k) by (unfold k; lia).
    rewrite Rmult_assoc, <- bpow_add. reflexivity. }
  rewrite Znearest_even_IZR, mult_IZR. rewrite <- (bpow_IZR k) by (unfold k; lia).
  rewrite Rmult_assoc, <- bpow_add.
  replace (k + cexp x)%Z with e by (unfold k; lia). reflexivity.
Qed.

(** Rounding moves a number by half a unit in the last place at most. *)
Lemma round_error x : Rabs (round x - x) <= bpow (cexp x) / 2.
Proof.
  unfold round. set (c := cexp x). pose proof (bpow_gt_0 c).
  pose proof (bpow_cancel c) as Hcancel.
  replace (IZR (Znearest_even (x * bpow (- c))) * bpow c - x)
    with ((IZR (Znearest_even (x * bpow (- c))) - x * bpow (- c)) * bpow c).
  2:{ rewrite Rmult_minus_distr_r, Rmult_assoc, (Rmult_comm (bpow (- c))), Hcancel. lra. }
  rewrite Rabs_mult, (Rabs_pos_eq (bpow c)) by lra.
  pose proof (Znearest_even_error (x * bpow (- c))).
  pose proof (Rabs_pos (IZR (Znearest_even (x * bpow (- c))) - x * bpow (- c))).
  unfold Rdiv. rewrite (Rmult_comm (bpow c)).
  apply Rmult_le_compat_r; lra.
Qed.

(** Below 2^n the unit in the last place is at most 2^(n-53). *)
Lemma round_error_below x (n : Z) :
  (-1021 <= n)%Z -> Rabs x < bpow n -> Rabs (round x - x) <= bpow (n - 54).
Proof.
  intros Hn Hx. destruct (Req_dec x 0) as [->|Hx0].
  { rewrite round_0, Rminus_0_r, Rabs_R0. left. apply bpow_gt_0. }
  destruct (mag_bounds x Hx0) as [Hlo _].
  assert (mag x - 1 < n)%Z by (apply bpow_lt_inv; lra).
  assert (cexp x <= n - 53)%Z as Hc by (unfold cexp; lia).
  apply bpow_le in Hc. pose proof (round_error x).
  replace (n - 53)%Z with ((n - 54) + 1)%Z in Hc by lia.
  rewrite bpow_add in Hc. change (bpow 1) with (2 * 1)%R in Hc.
  pose proof (bpow_gt_0 (cexp x)). lra.
Qed.

(** In a binade 2^(n-1) <= |x| < 2^n of the normal range the rounded value is
    a multiple of 2^(n-53). *)
Lemma round_multiple x (n : Z) :
  (-1021 <= n)%Z -> bpow (n - 1) <= Rabs x < bpow n ->
  exists k : Z, round x = IZR k * bpow (n - 53).
Proof.
  intros Hn Hx. apply mag_unique in Hx.
  eexists. unfold round. unfold cexp. rewrite Hx.
  rewrite Z.max_l by lia. reflexivity.
Qed.

(** *** Binary64 numbers *)

Lemma bpow_neg_const (k : Z) : (0 <= k)%Z -> bpow (- k) = / IZR (2 ^ k).
Proof. intros Hk. by rewrite bpow_opp, bpow_IZR. Qed.

Lemma bpow_m50 : bpow (-50) = / 1125899906842624.
Proof. apply (bpow_neg_const 50). lia. Qed.

Lemma bpow_m51 : bpow (-51) = / 2251799813685248.
Proof. apply (bpow_neg_const 51). lia. Qed.

Lemma bpow_m52 : bpow (-52) = / 4503599627370496.
Proof. apply (bpow_neg_const 52). lia. Qed.

Lemma bpow_2 : bpow 2 = 4.
Proof. apply (bpow_IZR 2). lia. Qed.

Lemma bpow_3 : bpow 3 = 8.
Proof. apply (bpow_IZR 3). lia. Qed.

Lemma round_exact (x : R) (m e : Z) :
  (Z.abs m < 2 ^ 53)%Z -> (-1074 <= e)%Z -> x = IZR m * bpow e -> round x = x.
Proof. intros Hm He ->. by apply round_generic. Qed.

Lemma round_ge_float (c y : R) : round c = c -> c <= y -> c <= round y.
Proof. intros Hc Hle. rewrite <- Hc at 1. by apply round_le. Qed.

Lemma round_le_float (x c : R) : round c = c -> x <= c -> round x <= c.
Proof. intros Hc Hle. rewrite <- Hc. by apply round_le. Qed.

Ltac round_bound H :=
  first [apply (round_ge_float _ _ H) | apply (round_le_float _ _ H)].

Lemma round_pi : round math.pi = math.pi.
Proof.
  apply (round_exact _ 7074237752028440 (-51)); [lia|lia|].
  rewrite bpow_m51. reflexivity.
Qed.

Lemma round_opp_pi : round (- math.pi) = - math.pi.
Proof. by rewrite round_opp, round_pi. Qed.

Lemma round_two_pi : round (2 * math.pi) = 2 * math.pi.
Proof.
  apply (round_exact _ 7074237752028440 (-50)); [lia|lia|].
  rewrite bpow_m50. unfold math.pi. lra.
Qed.

Lemma float_mul_two_pi : float_mul 2 math.pi = 2 * math.pi.
Proof. apply round_two_pi. Qed.

Lemma round_4 : round 4 = 4.
Proof. apply (round_exact _ 1 2); [lia|lia|]. rewrite bpow_2. lra. Qed.

(** The binary64 number before 2*pi and the one two before pi. *)
Lemma round_pred_two_pi :
  round (2 * math.pi - bpow (-50)) = 2 * math.pi - bpow (-50).
Proof.
  apply (round_exact _ 7074237752028439 (-50)); [lia|lia|].
  rewrite bpow_m50. unfold math.pi. lra.
Qed.

Lemma round_pred_pred_pi :
  round (math.pi - bpow (-50)) = math.pi - bpow (-50).
Proof.
  apply (round_exact _ 7074237752028438 (-51)); [lia|lia|].
  rewrite bpow_m50, bpow_m51. unfold math.pi. lra.
Qed.

Lemma Znearest_even_half (k : Z) :
  Znearest_even (IZR k + / 2) = if Z.even k then k else (k + 1)%Z.
Proof.
  unfold Znearest_even.
  assert (Zfloor (IZR k + / 2) = k) as -> by (apply Zfloor_eq; lra).
  destruct (Rlt_dec _ _); [lra|]. destruct (Rlt_dec _ _); [lra|]. reflexivity.
Qed.

(** Half-way between the binary64 number before 2*pi and 2*pi: the tie goes
    to 2*pi, whose last bit is 0. *)
Lemma round_tie_two_pi : round (2 * math.pi - bpow (-51)) = 2 * math.pi.
Proof.
  set (x := 2 * math.pi - bpow (-51)).
  assert (bpow (3 - 1) <= Rabs x < bpow 3) as Hx.
  { change (3 - 1)%Z with 2%Z. rewrite bpow_2, bpow_3. unfold x.
    rewrite bpow_m51. unfold math.pi. rewrite Rabs_pos_eq; lra. }
  apply mag_unique in Hx. unfold round, cexp. rewrite Hx.
  change (Z.max (3 - 53) (-1074)) with (-50)%Z. change (- -50)%Z with 50%Z.
  assert (x * bpow 50 = IZR 7074237752028439 + / 2) as ->.
  { unfold x. rewrite (bpow_IZR 50) by lia. rewrite bpow_m51.
    change (2 ^ 50)%Z with 1125899906842624%Z. unfold math.pi. lra. }
  rewrite Znearest_even_half. change (Z.even 7074237752028439) with false.
  cbv iota. change (7074237752028439 + 1)%Z with 7074237752028440%Z.
  rewrite bpow_m50. unfold math.pi. lra.
Qed.

(** *** The remainder *)

Lemma Ztrunc_small (q : R) : -1 < q < 1 -> Ztrunc q = 0%Z.
Proof.
  intros Hq. unfold Ztrunc. destruct (Rlt_dec q 0).
  - apply Zceil_eq. lra.
  - apply Zfloor_eq. lra.
Qed.

Lemma fmod_small (a b : R) : 0 < b -> - b < a < b -> fmod a b = a.
Proof.
  intros Hb Ha. unfold fmod. rewrite Ztrunc_small; [lra|].
  assert (0 < / b) by (by apply Rinv_0_lt_compat).
  assert (a / b * b = a) as Hdiv by (field; lra).
  split.
  - apply (Rmult_lt_reg_r b); [done|]. rewrite Hdiv. lra.
  - apply (Rmult_lt_reg_r b); [done|]. rewrite Hdiv. lra.
Qed.

Lemma fmod_self (b : R) : 0 < b -> fmod b b = 0.
Proof.
  intros Hb. unfold fmod.
  replace (b / b) with (IZR 1) by (field; lra).
  unfold Ztrunc. destruct (Rlt_dec (IZR 1) 0); [lra|]. rewrite ZfloorZ. lra.
Qed.

Lemma py_mod_small (a b : R) : 0 < b -> 0 <= a < b -> py_mod a b = a.
Proof.
  intros Hb Ha. unfold py_mod. rewrite fmod_small by lra.
  destruct (Req_dec_T a 0) as [->|Hne]; [done|].
  unfold negative. destruct (Rlt_dec b 0); [lra|]. destruct (Rlt_dec a 0); [lra|]. done.
Qed.

Lemma py_mod_self (b : R) : 0 < b -> py_mod b b = 0.
Proof.
  intros Hb. unfold py_mod. rewrite fmod_self by done.
  by destruct (Req_dec_T 0 0).
Qed.

Lemma py_mod_wrap (a b : R) : 0 < b -> - b < a < 0 -> py_mod a b = float_add a b.
Proof.
  intros Hb Ha. unfold py_mod. rewrite fmod_small by lra.
  destruct (Req_dec_T a 0) as [->|Hne]; [lra|].
  unfold negative. destruct (Rlt_dec b 0); [lra|]. destruct (Rlt_dec a 0); [|lra]. done.
Qed.

(** *** Lines 147 and 148 *)

Lemma pi_bounds : 3 < math.pi < 4.
Proof. unfold math.pi. lra. Qed.

Lemma float_add_pi_range (t : R) :
  - math.pi <= t <= math.pi -> 0 <= float_add t math.pi <= 2 * math.pi.
Proof.
  intros Ht. unfold float_add. split.
  - apply round_ge_0. lra.
  - round_bound round_two_pi; lra.
Qed.

(** A binary64 sum below 2*pi is at most the binary64 number before 2*pi. *)
Lemma float_add_pi_gap (t : R) :
  - math.pi <= t <= math.pi -> float_add t math.pi < 2 * math.pi ->
  float_add t math.pi <= 2 * math.pi - bpow (-50).
Proof.
  intros Ht Hlt. pose proof pi_bounds as Hpi. unfold float_add in *.
  destruct (Rlt_dec (t + math.pi) 4) as [Hsmall|Hbig].
  - apply (Rle_trans _ 4).
    + round_bound round_4; lra.
    + rewrite bpow_m50. lra.
  - destruct (round_multiple (t + math.pi) 3) as [k Hk]; [lia| |].
    { change (3 - 1)%Z with 2%Z. rewrite bpow_2, bpow_3.
      rewrite Rabs_pos_eq; lra. }
    change (3 - 53)%Z with (-50)%Z in Hk. rewrite Hk in *.
    assert (2 * math.pi = IZR 7074237752028440 * bpow (-50)) as HT.
    { rewrite bpow_m50. unfold math.pi. lra. }
    rewrite HT in *. pose proof (bpow_gt_0 (-50)) as Hb.
    assert (k < 7074237752028440)%Z as Hk'.
    { apply lt_IZR. apply (Rmult_lt_reg_r (bpow (-50))); done. }
    assert (k <= 7074237752028439)%Z as Hk'' by lia.
    apply IZR_le in Hk''.
    replace (IZR 7074237752028440 * bpow (-50) - bpow (-50))
      with (IZR 7074237752028439 * bpow (-50)) by lra.
    apply Rmult_le_compat_r; lra.
Qed.

(** The first normalization, on an angle of [math.atan2]. *)
Lemma start_angle_range (t : R) :
  - math.pi <= t <= math.pi ->
  - math.pi <= (normalized_angles t).1 < math.pi.
Proof.
  intros Ht. pose proof pi_bounds as Hpi.
  unfold normalized_angles. cbn [fst]. rewrite float_mul_two_pi.
  pose proof (float_add_pi_range t Ht) as [Hlo Hhi].
  destruct (Req_dec (float_add t math.pi) (2 * math.pi)) as [Heq|Hne].
  - rewrite Heq, py_mod_self by lra. unfold float_sub.
    rewrite Rminus_0_l, round_opp_pi. lra.
  - assert (float_add t math.pi < 2 * math.pi) as Hlt by lra.
    rewrite py_mod_small by lra.
    pose proof (float_add_pi_gap t Ht Hlt) as Hgap.
    unfold float_sub. split.
    + round_bound round_opp_pi; lra.
    + apply (Rle_lt_trans _ (math.pi - bpow (-50))).
      * round_bound round_pred_pred_pi; lra.
      * pose proof (bpow_gt_0 (-50)). lra.
Qed.

(** For [math.pi] and the binary64 number before it the sum [t + pi] rounds
    to 2*pi, and the remainder is 0. *)
Lemma start_angle_wraps (t : R) :
  math.pi - bpow (-51) <= t <= math.pi ->
  (normalized_angles t).1 = - math.pi.
Proof.
  intros Ht. pose proof pi_bounds as Hpi. pose proof (bpow_gt_0 (-51)) as Hb.
  assert (bpow (-51) < 1) as Hb1 by (rewrite bpow_m51; lra).
  unfold normalized_angles. cbn [fst]. rewrite float_mul_two_pi.
  assert (float_add t math.pi = 2 * math.pi) as ->.
  { unfold float_add. apply Rle_antisym.
    - round_bound round_two_pi; lra.
    - rewrite <- round_tie_two_pi. apply round_le. lra. }
  rewrite py_mod_self by lra. unfold float_sub.
  by rewrite Rminus_0_l, round_opp_pi.
Qed.

(** Below that, the addition and the subtraction each round once. *)
Lemma start_angle_error (t : R) :
  - math.pi <= t <= math.pi - bpow (-50) ->
  Rabs ((normalized_angles t).1 - t) <= bpow (-50).
Proof.
  intros Ht. pose proof pi_bounds as Hpi. pose proof (bpow_gt_0 (-50)) as Hb.
  unfold normalized_angles. cbn [fst]. rewrite float_mul_two_pi.
  assert (- math.pi <= t <= math.pi) as Ht' by lra.
  pose proof (float_add_pi_range t Ht') as [Hlo _].
  assert (float_add t math.pi <= 2 * math.pi - bpow (-50)) as Hhi.
  { unfold float_add. round_bound round_pred_two_pi; lra. }
  rewrite py_mod_small by lra.
  assert (Rabs (float_add t math.pi - (t + math.pi)) <= bpow (-51)) as H1.
  { unfold float_add. apply (round_error_below _ 3); [lia|].
    rewrite bpow_3. apply Rabs_def1; lra. }
  assert (Rabs (float_sub (float_add t math.pi) math.pi
                - (float_add t math.pi - math.pi)) <= bpow (-52)) as H2.
  { unfold float_sub. apply (round_error_below _ 2); [lia|].
    rewrite bpow_2. apply Rabs_def1; lra. }
  rewrite bpow_m51 in H1. rewrite bpow_m52 in H2. rewrite bpow_m50 in *.
  apply Rabs_le_bounds in H1, H2. apply Rabs_le. lra.
Qed.

(** The second normalization. *)
Lemma end_angle_range (theta : R) :
  - math.pi <= theta < math.pi ->
  let inverted_theta := float_sub (py_mod theta (float_mul 2 math.pi)) math.pi in
  - math.pi <= inverted_theta <= math.pi /\
  (0 <= theta -> Rabs (inverted_theta - (theta - math.pi)) <= bpow (-50)) /\
  (theta < 0 -> Rabs (inverted_theta - (theta + math.pi)) <= bpow (-50)).
Proof.
  intros Ht inverted_theta. pose proof pi_bounds as Hpi.
  unfold inverted_theta. rewrite float_mul_two_pi.
  destruct (Rle_dec 0 theta) as [Hpos|Hneg].
  - rewrite py_mod_small by lra. unfold float_sub. split; [split|split].
    + round_bound round_opp_pi; lra.
    + apply (Rle_trans _ 0); [|lra]. round_bound round_0; lra.
    + intros _. apply (Rle_trans _ (bpow (-52))).
      * apply (round_error_below _ 2); [lia|]. rewrite bpow_2. apply Rabs_def1; lra.
      * apply bpow_le. lia.
    + intros ?. lra.
  - rewrite py_mod_wrap by lra.
    assert (math.pi <= float_add theta (2 * math.pi) <= 2 * math.pi) as [Hlo Hhi].
    { unfold float_add. split.
      - round_bound round_pi; lra.
      - round_bound round_two_pi; lra. }
    unfold float_sub. split; [split|split].
    + apply (Rle_trans _ 0); [lra|]. apply round_ge_0. lra.
    + round_bound round_pi; lra.
    + intros ?. lra.
    + intros _.
      assert (Rabs (float_add theta (2 * math.pi) - (theta + 2 * math.pi))
              <= bpow (-51)) as H1.
      { unfold float_add. apply (round_error_below _ 3); [lia|].
        rewrite bpow_3. apply Rabs_def1; lra. }
      assert (Rabs (round (float_add theta (2 * math.pi) - math.pi)
                    - (float_add theta (2 * math.pi) - math.pi)) <= bpow (-52)) as H2.
      { apply (round_error_below _ 2); [lia|].
        rewrite bpow_2. apply Rabs_def1; lra. }
      rewrite bpow_m51 in H1. rewrite bpow_m52 in H2. rewrite bpow_m50.
      apply Rabs_le_bounds in H1, H2. apply Rabs_le. lra.
Qed.

(** *** Two angles *)

(** The angle 0 of line 146 gives the angles 0 and [-math.pi]. *)
Lemma normalized_angles_0 : normalized_angles 0 = (0, - math.pi).
Proof.
  pose proof pi_bounds as Hpi.
  unfold normalized_angles. cbv zeta. rewrite float_mul_two_pi.
  assert (float_sub (py_mod (float_add 0 math.pi) (2 * math.pi)) math.pi = 0) as ->.
  { unfold float_add. rewrite Rplus_0_l, round_pi.
    rewrite py_mod_small by lra. unfold float_sub.
    replace (math.pi - math.pi) with 0 by lra. apply round_0. }
  rewrite py_mod_small by lra.
  unfold float_sub. by rewrite Rminus_0_l, round_opp_pi.
Qed.

Lemma round_m51 : round (- bpow (-51)) = - bpow (-51).
Proof.
  rewrite round_opp. f_equal.
  apply (round_exact _ 1 (-51)); [lia|lia|lra].
Qed.

Lemma round_pred_pi : round (math.pi - bpow (-51)) = math.pi - bpow (-51).
Proof.
  apply (round_exact _ 7074237752028439 (-51)); [lia|lia|].
  rewrite bpow_m51. unfold math.pi. lra.
Qed.

(** The end angle can be +pi: for the start angle -2^-51 the sum
    [theta + 2*pi] is a tie and rounds to 2*pi. *)
Lemma normalized_angles_reach_pi :
  normalized_angles (- bpow (-51)) = (- bpow (-51), math.pi).
Proof.
  pose proof pi_bounds as Hpi. pose proof (bpow_gt_0 (-51)) as Hb.
  assert (bpow (-51) < 1) as Hb1 by (rewrite bpow_m51; lra).
  unfold normalized_angles. cbv zeta. rewrite float_mul_two_pi.
  assert (float_sub (py_mod (float_add (- bpow (-51)) math.pi) (2 * math.pi)) math.pi
          = - bpow (-51)) as ->.
  { unfold float_add.
    replace (- bpow (-51) + math.pi) with (math.pi - bpow (-51)) by lra.
    rewrite round_pred_pi. rewrite py_mod_small by lra. unfold float_sub.
    replace (math.pi - bpow (-51) - math.pi) with (- bpow (-51)) by lra.
    apply round_m51. }
  rewrite py_mod_wrap by lra.
  unfold float_add.
  replace (- bpow (-51) + 2 * math.pi) with (2 * math.pi - bpow (-51)) by lra.
  rewrite round_tie_two_pi. unfold float_sub.
  replace (2 * math.pi - math.pi) with math.pi by lra.
  by rewrite round_pi.
Qed.

End Binary64.

Section Properties.
Context {tables : defaults.tables} {gen : uuid.generator} {meths : primitives.methods}.
Context {libm : math.libm} {fs : os.filesystem}.

(** ** Running the steps of a method body *)

Lemma bind_Ok {A B} (c : M A) (k : A -> M B) s a s' :
  c s = Ok (a, s') -> (c ≫= k) s = k a s'.
Proof. intros Hc. unfold mbind, M_bind. by rewrite Hc. Qed.

Lemma deref_Some s r p : heap s !! r = Some p -> deref r s = Ok (p, s).
Proof. intros Hr. unfold deref. by rewrite Hr. Qed.

Ltac simpl_state :=
  cbn [heap self uuid_calls files with_heap with_self with_uuid_calls with_files
       draw_objs data BOX_DEFAULTS LINE_DEFAULTS TEXT_DEFAULTS with_draw_objs
       with_elements elements] in *.

Lemma heap_insert_snoc (h : list primitives.ExcaliDrawPrimitive)
    (a b : primitives.ExcaliDrawPrimitive) :
  <[length h := b]> (h ++ [a]) = h ++ [b].
Proof. rewrite insert_app_r_alt by lia. by rewrite Nat.sub_diag. Qed.

Lemma heap_lookup_snoc (h : list primitives.ExcaliDrawPrimitive)
    (a : primitives.ExcaliDrawPrimitive) :
  (h ++ [a]) !! length h = Some a.
Proof. by rewrite lookup_app_r, Nat.sub_diag by lia. Qed.

(** Keyword arguments that name none of [params] pass the check. *)
Lemma check_kwargs_None params (kwargs : pydict) s :
  Forall (fun p => kwargs !! p = None) params ->
  check_kwargs params kwargs s = Ok (tt, s).
Proof.
  intros Hall. unfold check_kwargs.
  destruct (list_find _ params) as [[i p]|] eqn:Hfind; [|done].
  apply list_find_Some in Hfind as (Hp & [v Hv] & _).
  rewrite Forall_lookup in Hall. specialize (Hall _ _ Hp). simpl in Hall. congruence.
Qed.

Lemma check_kwargs_empty params s : check_kwargs params ∅ s = Ok (tt, s).
Proof. apply check_kwargs_None. apply Forall_forall. intros p _. apply lookup_empty. Qed.

Lemma merge_style_empty (d : pydict) : primitives.merge_style d ∅ = d.
Proof. unfold primitives.merge_style. by rewrite (left_id_L ∅ (∪)). Qed.

(** ** The constructor and the custom defaults *)

Lemma contains_true (d : pydict) key : contains d key = true <-> is_Some (d !! key).
Proof. unfold contains. apply bool_decide_eq_true. Qed.

Lemma contains_false (d : pydict) key : contains d key = false <-> d !! key = None.
Proof. unfold contains. rewrite bool_decide_eq_false. by rewrite eq_None_not_Some. Qed.

Lemma setitem_twice sb key value :
  setitem_BOX_DEFAULTS (setitem_BOX_DEFAULTS sb key value) key value
  = setitem_BOX_DEFAULTS sb key value.
Proof. unfold setitem_BOX_DEFAULTS. simpl. by rewrite insert_insert_eq. Qed.

Lemma recognized_dec sb key : {recognized sb key} + {~ recognized sb key}.
Proof. unfold recognized. exact (decide _). Qed.

(** One round of the loop on a key some profile has: whichever of the three
    tests succeed, the value lands in the box profile. *)
Lemma custom_default_recognized sb key value :
  recognized sb key ->
  custom_default sb (key, value) = Ok (setitem_BOX_DEFAULTS sb key value).
Proof.
  intros Hrec. unfold custom_default.
  destruct (contains (BOX_DEFAULTS sb) key) eqn:Hbox;
    cbn [setitem_BOX_DEFAULTS LINE_DEFAULTS];
    destruct (contains (LINE_DEFAULTS sb) key) eqn:Hline;
    cbn [setitem_BOX_DEFAULTS TEXT_DEFAULTS];
    destruct (contains (TEXT_DEFAULTS sb) key) eqn:Htext;
    cbn [negb]; rewrite ?setitem_twice; try reflexivity.
  exfalso. apply contains_false in Hbox, Hline, Htext.
  destruct Hrec as [[v Hv]|[[v Hv]|[v Hv]]]; congruence.
Qed.

(** One round of the loop on a key no profile has. *)
Lemma custom_default_unrecognized sb key value :
  ~ recognized sb key ->
  custom_default sb (key, value) = Raise (Exception ("Key <" +:+ key +:+ "> not used.")).
Proof.
  intros Hrec. unfold custom_default.
  destruct (contains (BOX_DEFAULTS sb) key) eqn:Hbox.
  { exfalso. apply Hrec. left. by apply contains_true. }
  destruct (contains (LINE_DEFAULTS sb) key) eqn:Hline.
  { exfalso. apply Hrec. right. left. by apply contains_true. }
  destruct (contains (TEXT_DEFAULTS sb) key) eqn:Htext.
  { exfalso. apply Hrec. right. right. by apply contains_true. }
  reflexivity.
Qed.

(** Writing a recognized key into the box profile changes no answer of the
    three tests. *)
Lemma recognized_setitem sb key value key' :
  recognized sb key ->
  recognized (setitem_BOX_DEFAULTS sb key value) key' <-> recognized sb key'.
Proof.
  intros Hkey. unfold recognized.
  cbn [setitem_BOX_DEFAULTS BOX_DEFAULTS LINE_DEFAULTS TEXT_DEFAULTS].
  destruct (decide (key = key')) as [->|Hne].
  - rewrite lookup_insert_eq. split; [intros _; exact Hkey|]. intros _. left. by eexists.
  - by rewrite lookup_insert_ne.
Qed.

Lemma loop_raises items sb :
  (exists e, custom_defaults_loop items sb = Raise e) <->
  (exists key, key ∈ items.*1 /\ ~ recognized sb key).
Proof.
  revert sb. induction items as [|[key value] rest IH]; intros sb;
    cbn [custom_defaults_loop].
  - split; [intros [e He]; discriminate|].
    intros (key & Hin & _). by apply elem_of_nil in Hin.
  - rewrite fmap_cons. cbn [fst].
    destruct (recognized_dec sb key) as [Hrec|Hrec].
    + rewrite custom_default_recognized by done. rewrite IH.
      split; intros (k & Hin & Hk); exists k.
      * split; [apply elem_of_cons; by right|].
        by rewrite <- (recognized_setitem sb key value).
      * rewrite recognized_setitem by done. split; [|done].
        apply elem_of_cons in Hin as [->|Hin]; done.
    + rewrite custom_default_unrecognized by done. split; [|by eexists].
      intros _. exists key. split; [apply elem_of_cons; by left|done].
Qed.

Lemma loop_raises_message items sb e :
  custom_defaults_loop items sb = Raise e ->
  exists key, key ∈ items.*1 /\ e = Exception ("Key <" +:+ key +:+ "> not used.").
Proof.
  revert sb. induction items as [|[key value] rest IH]; intros sb;
    cbn [custom_defaults_loop]; [discriminate|].
  rewrite fmap_cons. cbn [fst].
  destruct (recognized_dec sb key) as [Hrec|Hrec].
  - rewrite custom_default_recognized by done. intros Hloop.
    destruct (IH _ Hloop) as (k & Hin & ->). exists k.
    split; [apply elem_of_cons; by right|done].
  - rewrite custom_default_unrecognized by done. intros [= <-].
    exists key. split; [apply elem_of_cons; by left|done].
Qed.

Lemma loop_frame items sb sb' :
  custom_defaults_loop items sb = Ok sb' ->
  LINE_DEFAULTS sb' = LINE_DEFAULTS sb /\ TEXT_DEFAULTS sb' = TEXT_DEFAULTS sb /\
  data sb' = data sb /\ draw_objs sb' = draw_objs sb /\
  BOX_DEFAULTS sb' = foldl (fun d item => <[item.1 := item.2]> d) (BOX_DEFAULTS sb) items.
Proof.
  revert sb. induction items as [|[key value] rest IH]; intros sb;
    cbn [custom_defaults_loop foldl].
  - intros [= <-]. done.
  - destruct (recognized_dec sb key) as [Hrec|Hrec].
    + rewrite custom_default_recognized by done. intros Hloop.
      apply IH in Hloop. exact Hloop.
    + rewrite custom_default_unrecognized by done. discriminate.
Qed.

Lemma foldl_insert_notin (items : list (string * pyval)) (d : pydict) key :
  key ∉ items.*1 ->
  foldl (fun d item => <[item.1 := item.2]> d) d items !! key = d !! key.
Proof.
  revert d. induction items as [|[k v] rest IH]; intros d Hnotin; simpl; [done|].
  rewrite fmap_cons in Hnotin. apply not_elem_of_cons in Hnotin as [Hne Hrest].
  rewrite IH by done. simpl. by rewrite lookup_insert_ne.
Qed.

Lemma foldl_insert_in (items : list (string * pyval)) (d : pydict) key value :
  NoDup items.*1 -> (key, value) ∈ items ->
  foldl (fun d item => <[item.1 := item.2]> d) d items !! key = Some value.
Proof.
  revert d. induction items as [|[k v] rest IH]; intros d Hnodup Hin; simpl.
  - by apply elem_of_nil in Hin.
  - rewrite fmap_cons in Hnodup. apply NoDup_cons in Hnodup as [Hk Hnodup].
    apply elem_of_cons in Hin as [[= -> ->]|Hin].
    + rewrite foldl_insert_notin by done. simpl. apply lookup_insert_eq.
    + by apply IH.
Qed.

(** The three profiles of a new builder have the keys of the three static
    tables. *)
Lemma recognized_initial_builder key :
  recognized initial_builder key <->
  is_Some (defaults.BOX_DEFAULTS !! key) \/ is_Some (defaults.LINE_DEFAULTS !! key)
  \/ is_Some (defaults.TEXT_DEFAULTS !! key).
Proof.
  unfold recognized, initial_builder, update. simpl.
  rewrite !lookup_union_is_Some. tauto.
Qed.

(** A keyword argument named [self] is refused before the body runs. *)
Lemma init_self (custom_defaults : list (string * pyval)) :
  "self" ∈ custom_defaults.*1 ->
  __init__ custom_defaults = Raise (TypeError "got multiple values for argument self").
Proof. intros Hin. unfold __init__. by rewrite bool_decide_true. Qed.

Lemma init_loop (custom_defaults : list (string * pyval)) :
  "self" ∉ custom_defaults.*1 ->
  __init__ custom_defaults = custom_defaults_loop custom_defaults initial_builder.
Proof. intros Hin. unfold __init__. by rewrite bool_decide_false. Qed.

Lemma init_Ok_loop (custom_defaults : list (string * pyval)) (sb : SketchBuilder) :
  __init__ custom_defaults = Ok sb ->
  ("self" ∉ custom_defaults.*1) /\
  custom_defaults_loop custom_defaults initial_builder = Ok sb.
Proof.
  unfold __init__. case_bool_decide as Hself; [discriminate|]. by intros Hloop.
Qed.

(** The key the exception of the loop names is one no profile has. *)
Lemma loop_raises_unrecognized items sb e :
  custom_defaults_loop items sb = Raise e ->
  exists key, key ∈ items.*1 /\ ~ recognized sb key /\
    e = Exception ("Key <" +:+ key +:+ "> not used.").
Proof.
  revert sb. induction items as [|[key value] rest IH]; intros sb;
    cbn [custom_defaults_loop]; [discriminate|].
  rewrite fmap_cons. cbn [fst].
  destruct (recognized_dec sb key) as [Hrec|Hrec].
  - rewrite custom_default_recognized by done. intros Hloop.
    destruct (IH _ Hloop) as (k & Hin & Hk & ->). exists k.
    split; [apply elem_of_cons; by right|]. split; [|done].
    by rewrite <- (recognized_setitem sb key value).
  - rewrite custom_default_unrecognized by done. intros [= <-].
    exists key. split; [apply elem_of_cons; by left|done].
Qed.

(** C3. The three profiles are filled from the static tables, which have
    no key named [self]. Constructing a builder with custom defaults raises
    exactly when some supplied key is in none of the three profiles
    (box-like, line-like, text-like), and returns a builder exactly when
    every supplied key is in at least one profile. The error is the
    [Exception] of line 54, which names a key no profile has; for the key
    [self] it is the [TypeError] of the call itself, raised before the body
    runs. *)
Theorem init_raises_iff_unrecognized_key (custom_defaults : list (string * pyval)) :
  ~ recognized initial_builder "self" ->
  ((exists e, __init__ custom_defaults = Raise e) <->
   (exists key, key ∈ custom_defaults.*1 /\
      BOX_DEFAULTS initial_builder !! key = None /\
      LINE_DEFAULTS initial_builder !! key = None /\
      TEXT_DEFAULTS initial_builder !! key = None)) /\
  ((exists sb, __init__ custom_defaults = Ok sb) <->
   (forall key, key ∈ custom_defaults.*1 -> recognized initial_builder key)) /\
  (forall e, __init__ custom_defaults = Raise e ->
     ("self" ∈ custom_defaults.*1 /\ exists msg, e = TypeError msg) \/
     (("self" ∉ custom_defaults.*1) /\
      exists key, key ∈ custom_defaults.*1 /\ ~ recognized initial_builder key /\
        e = Exception ("Key <" +:+ key +:+ "> not used."))).
Proof.
  intros Hself.
  assert (forall key, ~ recognized initial_builder key <->
            BOX_DEFAULTS initial_builder !! key = None /\
            LINE_DEFAULTS initial_builder !! key = None /\
            TEXT_DEFAULTS initial_builder !! key = None) as Hnot.
  { intros key. unfold recognized. rewrite !eq_None_not_Some. tauto. }
  destruct (decide ("self" ∈ custom_defaults.*1)) as [Hin|Hnotin].
  { rewrite (init_self _ Hin). split; [|split].
    - split; [|by eexists]. intros _. exists "self". split; [done|]. by apply Hnot.
    - split; [by intros [sb Hsb]|]. intros Hall. destruct Hself. by apply Hall.
    - intros e [= <-]. left. split; [done|by eexists]. }
  rewrite (init_loop _ Hnotin).
  pose proof (loop_raises custom_defaults initial_builder) as Hraises.
  split; [|split].
  - rewrite Hraises. by setoid_rewrite Hnot.
  - split.
    + intros [sb Hsb] key Hin.
      destruct (recognized_dec initial_builder key) as [Hrec|Hrec]; [done|].
      destruct (proj2 Hraises) as [e He]; [by exists key|]. congruence.
    + intros Hall.
      destruct (custom_defaults_loop custom_defaults initial_builder) as [sb|e] eqn:Hinit;
        [by exists sb|].
      destruct (proj1 Hraises) as (key & Hin & Hkey); [by exists e|].
      destruct Hkey. by apply Hall.
  - intros e He. right. split; [done|]. by eapply loop_raises_unrecognized.
Qed.

(** C5. When the construction succeeds, the line-like and text-like profiles
    are the ones a builder without custom defaults has; every supplied value
    is the box-like profile's entry for its key, also for a key only the
    line-like or text-like profile had; the other entries of the box-like
    profile are unchanged. *)
Theorem init_writes_box_profile_only
    (custom_defaults : list (string * pyval)) (sb : SketchBuilder) :
  __init__ custom_defaults = Ok sb ->
  LINE_DEFAULTS sb = update defaults.BOX_DEFAULTS defaults.LINE_DEFAULTS /\
  TEXT_DEFAULTS sb = update defaults.BOX_DEFAULTS defaults.TEXT_DEFAULTS /\
  (NoDup custom_defaults.*1 ->
   forall key value, (key, value) ∈ custom_defaults ->
     BOX_DEFAULTS sb !! key = Some value) /\
  (forall key, key ∉ custom_defaults.*1 ->
     BOX_DEFAULTS sb !! key = defaults.BOX_DEFAULTS !! key).
Proof.
  intros Hinit. apply init_Ok_loop in Hinit as [_ Hinit].
  apply loop_frame in Hinit as (Hline & Htext & _ & _ & Hbox).
  split; [exact Hline|]. split; [exact Htext|]. rewrite Hbox. split.
  - intros Hnodup key value Hin. by apply foldl_insert_in.
  - intros key Hnotin. by rewrite foldl_insert_notin.
Qed.

(** ** Creating primitives *)

Lemma Rectangle_run (s : State) (x y width height : R) (kwargs : pydict) :
  Forall (fun p => kwargs !! p = None) ["self"; "x"; "y"; "width"; "height"] ->
  Rectangle x y width height kwargs s =
  Ok (length (heap s),
      registered (primitives.Shape "rectangle" (BOX_DEFAULTS (self s)) x y width height
                    kwargs (uuid.uuid4 (uuid_calls s))) s).
Proof.
  intros Hk. unfold Rectangle.
  rewrite (bind_Ok _ _ _ _ _ (check_kwargs_None _ _ s Hk)).
  reflexivity.
Qed.

Lemma Text_run (s : State) (content : string) (x y : R) (kwargs : pydict) :
  Forall (fun p => kwargs !! p = None) ["self"; "text"; "x"; "y"] ->
  Text content x y kwargs s =
  Ok (length (heap s),
      registered (primitives.Text content (TEXT_DEFAULTS (self s)) x y kwargs
                    (uuid.uuid4 (uuid_calls s))) s).
Proof.
  intros Hk. unfold Text.
  rewrite (bind_Ok _ _ _ _ _ (check_kwargs_None _ _ s Hk)).
  reflexivity.
Qed.

Lemma Line_run (s : State) (start_pt end_pt : R * R) (kwargs : pydict) :
  Forall (fun p => kwargs !! p = None) ["self"; "start_pt"; "end_pt"] ->
  Line start_pt end_pt kwargs s =
  Ok (length (heap s),
      registered (primitives.Line "line" (LINE_DEFAULTS (self s)) start_pt end_pt kwargs
                    (uuid.uuid4 (uuid_calls s))) s).
Proof.
  intros Hk. unfold Line.
  rewrite (bind_Ok _ _ _ _ _ (check_kwargs_None _ _ s Hk)).
  reflexivity.
Qed.

Lemma Arrow_run (s : State) (start_pt end_pt : R * R) (kwargs : pydict) :
  Forall (fun p => kwargs !! p = None) ["self"; "start_pt"; "end_pt"] ->
  Arrow start_pt end_pt kwargs s =
  Ok (length (heap s),
      registered (primitives.Line "arrow" (LINE_DEFAULTS (self s)) start_pt end_pt
                    (<["endArrowhead" := PyStr "arrow"]> kwargs)
                    (uuid.uuid4 (uuid_calls s))) s).
Proof.
  intros Hk. unfold Arrow.
  rewrite (bind_Ok _ _ _ _ _ (check_kwargs_None _ _ s Hk)).
  reflexivity.
Qed.

Lemma DoubleArrow_run (s : State) (start_pt end_pt : R * R) (kwargs : pydict) :
  Forall (fun p => kwargs !! p = None) ["self"; "start_pt"; "end_pt"] ->
  DoubleArrow start_pt end_pt kwargs s =
  Ok (length (heap s),
      registered (primitives.Line "arrow" (LINE_DEFAULTS (self s)) start_pt end_pt
                    (<["endArrowhead" := PyStr "arrow"]>
                       (<["startArrowhead" := PyStr "arrow"]> kwargs))
                    (uuid.uuid4 (uuid_calls s))) s).
Proof.
  intros Hk. unfold DoubleArrow.
  rewrite (bind_Ok _ _ _ _ _ (check_kwargs_None _ _ s Hk)).
  cbv zeta. apply Arrow_run.
  rewrite !Forall_cons in Hk |- *. destruct Hk as (Hself & Hstart & Hend & _).
  repeat split; try apply Forall_nil_2; by rewrite lookup_insert_ne.
Qed.

(** Registering a new primitive keeps every registered primitive an object
    of the heap. *)
Lemma registered_live_objs (p : primitives.ExcaliDrawPrimitive) (s : State) :
  live_objs s -> live_objs (registered p s).
Proof.
  unfold live_objs, registered. simpl_state. intros Hlive.
  apply Forall_app. split.
  - eapply Forall_impl; [exact Hlive|]. intros r [obj Hobj]. exists obj.
    by apply lookup_app_l_Some.
  - apply Forall_singleton. exists p. apply heap_lookup_snoc.
Qed.

(** C8. [Line], [Arrow] and [DoubleArrow] register one object of the same
    class, built by the same constructor from the same line profile; they
    differ in the arrowhead keys they add to the caller's keyword arguments:
    [Line] adds none, [Arrow] sets the end arrowhead to 'arrow' and leaves the
    start arrowhead as [Line] has it, [DoubleArrow] sets both to 'arrow',
    whatever the caller supplied for them. *)
Theorem line_arrow_doublearrow_configurations
    (s : State) (start_pt end_pt : R * R) (kwargs : pydict) :
  Forall (fun p => kwargs !! p = None) ["self"; "start_pt"; "end_pt"] ->
  let build kind kw :=
    primitives.Line kind (LINE_DEFAULTS (self s)) start_pt end_pt kw
      (uuid.uuid4 (uuid_calls s)) in
  let line := build "line" kwargs in
  let arrow := build "arrow" (<["endArrowhead" := PyStr "arrow"]> kwargs) in
  let double :=
    build "arrow" (<["endArrowhead" := PyStr "arrow"]>
                     (<["startArrowhead" := PyStr "arrow"]> kwargs)) in
  Line start_pt end_pt kwargs s = Ok (length (heap s), registered line s) /\
  Arrow start_pt end_pt kwargs s = Ok (length (heap s), registered arrow s) /\
  DoubleArrow start_pt end_pt kwargs s = Ok (length (heap s), registered double s) /\
  primitives.class_of line = primitives.LineClass /\
  primitives.class_of arrow = primitives.LineClass /\
  primitives.class_of double = primitives.LineClass /\
  primitives.config line = kwargs ∪ LINE_DEFAULTS (self s) /\
  primitives.startArrowhead arrow = primitives.startArrowhead line /\
  primitives.endArrowhead arrow = Some (PyStr "arrow") /\
  primitives.startArrowhead double = Some (PyStr "arrow") /\
  primitives.endArrowhead double = Some (PyStr "arrow").
Proof.
  intros Hk build line arrow double.
  split; [by apply Line_run|]. split; [by apply Arrow_run|].
  split; [by apply DoubleArrow_run|].
  unfold primitives.startArrowhead, primitives.endArrowhead.
  cbn [line arrow double build primitives.Line primitives.class_of primitives.config].
  unfold primitives.merge_style.
  repeat split.
  - rewrite !lookup_union. by rewrite lookup_insert_ne.
  - rewrite lookup_union, lookup_insert_eq. by destruct (LINE_DEFAULTS (self s) !! _).
  - rewrite lookup_union, lookup_insert_ne, lookup_insert_eq by done.
    by destruct (LINE_DEFAULTS (self s) !! _).
  - rewrite lookup_union, lookup_insert_eq. by destruct (LINE_DEFAULTS (self s) !! _).
Qed.

(** ** Bounding elements *)

Lemma empty_kwargs_name_nothing (params : list string) :
  Forall (fun p => (∅ : pydict) !! p = None) params.
Proof. apply Forall_forall. intros p _. apply lookup_empty. Qed.

Lemma groupIds_append_Some s r p g :
  heap s !! r = Some p ->
  groupIds_append r g s
  = Ok (tt, with_heap (<[r := primitives.append_groupId p g]> (heap s)) s).
Proof.
  intros Hr. unfold groupIds_append.
  rewrite (bind_Ok _ _ _ _ _ (deref_Some _ _ _ Hr)). reflexivity.
Qed.

(** The state after [create_bounding_element(E, padding=p)], with the
    default factory or with [self.Rectangle]. *)
Lemma create_bounding_element_run (s : State) (E : ref)
    (obj : primitives.ExcaliDrawPrimitive) (function : option ShapeFactory) (p : R) :
  default Rectangle function = Rectangle ->
  heap s !! E = Some obj ->
  let B := length (heap s) in
  let g := uuid.uuid4 (S (uuid_calls s)) in
  let rect0 := primitives.Shape "rectangle" (BOX_DEFAULTS (self s))
                 (primitives.x obj) (primitives.y obj)
                 (primitives.width obj + 2 * p) (primitives.height obj + 2 * p) ∅
                 (uuid.uuid4 (uuid_calls s)) in
  create_bounding_element E function p ∅ s =
  Ok (B, {| self := with_draw_objs (draw_objs (self s) ++ [B]) (self s);
            heap := <[E := primitives.append_groupId obj g]> (heap s)
                    ++ [primitives.append_groupId rect0 g];
            uuid_calls := S (S (uuid_calls s));
            files := files s |}).
Proof.
  intros Hfun HE B g rect0.
  assert (E < length (heap s)) as Hlt by (by eapply lookup_lt_Some).
  unfold create_bounding_element. rewrite Hfun.
  rewrite (bind_Ok _ _ _ _ _ (deref_Some _ _ _ HE)). cbv zeta.
  rewrite (bind_Ok _ _ _ _ _ (check_kwargs_empty _ s)).
  erewrite bind_Ok; last by apply Rectangle_run, empty_kwargs_name_nothing.
  cbn [primitives.center fst snd]. fold rect0. fold B.
  unfold uuid4 at 1. unfold mbind at 1, M_bind at 1.
  unfold registered. simpl_state. fold g.
  erewrite bind_Ok; last first.
  { apply groupIds_append_Some. simpl_state. by apply lookup_app_l_Some. }
  simpl_state.
  erewrite bind_Ok; last first.
  { apply groupIds_append_Some. simpl_state.
    rewrite list_lookup_insert_ne by (unfold B; lia).
    apply heap_lookup_snoc. }
  simpl_state. unfold mret, M_ret. do 2 f_equal. unfold with_heap. simpl_state.
  f_equal.
  rewrite insert_app_l by done.
  unfold B. rewrite <- (length_insert (heap s) E (primitives.append_groupId obj g)).
  apply heap_insert_snoc.
Qed.

(** C1. For a primitive [E] of the heap and a padding [p],
    [create_bounding_element(E, padding=p)] returns a new object [B], which
    it registers: a rectangle of width [E.width + 2*p] and height
    [E.height + 2*p] with the center of [E]. The identifier [g] drawn by the
    call is appended to the group ids of [E] and is the group id of the
    rectangle, and [g] is the only group id the two have in common. No other
    object changes. *)
Theorem create_bounding_element_default (s : State) (E : ref)
    (obj : primitives.ExcaliDrawPrimitive) (p : R) :
  heap s !! E = Some obj ->
  let B := length (heap s) in
  let g := uuid.uuid4 (S (uuid_calls s)) in
  exists (rect : primitives.ExcaliDrawPrimitive) (s' : State),
    create_bounding_element E None p ∅ s = Ok (B, s') /\
    heap s !! B = None /\
    draw_objs (self s') = draw_objs (self s) ++ [B] /\
    heap s' !! B = Some rect /\
    primitives.class_of rect = primitives.ShapeClass /\
    primitives.excal_type rect = "rectangle" /\
    primitives.width rect = (primitives.width obj + 2 * p)%R /\
    primitives.height rect = (primitives.height obj + 2 * p)%R /\
    primitives.center rect = primitives.center obj /\
    uuid_calls s' = S (S (uuid_calls s)) /\
    heap s' !! E = Some (primitives.append_groupId obj g) /\
    primitives.groupIds (primitives.append_groupId obj g)
      = primitives.groupIds obj ++ [g] /\
    primitives.groupIds rect = [g] /\
    (forall i : string,
        i ∈ primitives.groupIds (primitives.append_groupId obj g) /\
        i ∈ primitives.groupIds rect <-> i = g) /\
    (forall r : ref, r <> E -> r <> B -> heap s' !! r = heap s !! r).
Proof.
  intros HE B g.
  assert (E < length (heap s)) as Hlt by (by eapply lookup_lt_Some).
  eexists (primitives.append_groupId
             (primitives.Shape "rectangle" (BOX_DEFAULTS (self s))
                (primitives.x obj) (primitives.y obj)
                (primitives.width obj + 2 * p) (primitives.height obj + 2 * p) ∅
                (uuid.uuid4 (uuid_calls s))) g).
  eexists.
  split; [by apply create_bounding_element_run|].
  simpl_state.
  repeat split.
  - apply lookup_ge_None. unfold B. lia.
  - unfold B. rewrite lookup_app_r by (rewrite length_insert; lia).
    rewrite length_insert, Nat.sub_diag. reflexivity.
  - rewrite lookup_app_l by (rewrite length_insert; lia).
    by apply list_lookup_insert_eq.
  - intros [_ Hi]. by apply list_elem_of_singleton in Hi.
  - subst i. apply elem_of_app. right. by apply list_elem_of_singleton.
  - subst i. by apply list_elem_of_singleton.
  - intros r HrE HrB.
    destruct (decide (r < length (heap s))) as [Hr|Hr].
    + rewrite lookup_app_l by (rewrite length_insert; lia).
      by rewrite list_lookup_insert_ne.
    + rewrite (lookup_ge_None_2 (heap s)) by lia.
      apply lookup_ge_None. rewrite length_app, length_insert. simpl.
      unfold B in HrB. lia.
Qed.

(** The state after [TextBox(text, x, y)]. *)
Lemma TextBox_run (s : State) (content : string) (x y : R) :
  let T := length (heap s) in
  let g := uuid.uuid4 (S (S (uuid_calls s))) in
  let txt0 := primitives.Text content (TEXT_DEFAULTS (self s)) x y ∅
                (uuid.uuid4 (uuid_calls s)) in
  let rect0 := primitives.Shape "rectangle" (BOX_DEFAULTS (self s)) x y
                 (primitives.width txt0 + 2 * 10) (primitives.height txt0 + 2 * 10) ∅
                 (uuid.uuid4 (S (uuid_calls s))) in
  TextBox content x y None None s =
  Ok (S T, {| self := with_draw_objs (draw_objs (self s) ++ [T; S T]) (self s);
              heap := heap s ++ [primitives.append_groupId txt0 g;
                                 primitives.append_groupId rect0 g];
              uuid_calls := S (S (S (uuid_calls s)));
              files := files s |}).
Proof.
  intros T g txt0 rect0. unfold TextBox. simpl default.
  erewrite bind_Ok; last by apply Text_run, empty_kwargs_name_nothing.
  fold txt0. fold T.
  erewrite bind_Ok; last by apply check_kwargs_empty.
  rewrite lookup_empty, delete_empty.
  unfold mret at 1, M_ret at 1. unfold mbind at 1, M_bind at 1.
  erewrite create_bounding_element_run; [|done|]; last first.
  { unfold registered. simpl_state. apply heap_lookup_snoc. }
  unfold registered. simpl_state. rewrite length_app. simpl length.
  replace (length (heap s) + 1) with (S T) by (unfold T; lia).
  do 2 f_equal. f_equal.
  - unfold with_draw_objs. simpl_state. by rewrite <- app_assoc.
  - unfold T. rewrite heap_insert_snoc, <- app_assoc. reflexivity.
Qed.

(** C9. [TextBox(text, x, y)] puts two new objects in the heap and registers
    them in this order: a text, then a rectangle. It returns the rectangle.
    The two have exactly one group id in common, and with the default padding
    the rectangle is strictly wider and strictly higher than the text, whose
    extents are the ones computed from its content. *)
Theorem TextBox_text_then_rectangle (s : State) (content : string) (x y : R) :
  let T := length (heap s) in
  let B := S (length (heap s)) in
  exists (txt rect : primitives.ExcaliDrawPrimitive) (g : string) (s' : State),
    TextBox content x y None None s = Ok (B, s') /\
    draw_objs (self s') = draw_objs (self s) ++ [T; B] /\
    heap s' = heap s ++ [txt; rect] /\
    primitives.class_of txt = primitives.TextClass /\
    primitives.excal_type txt = "text" /\
    primitives.text txt = content /\
    primitives.class_of rect = primitives.ShapeClass /\
    primitives.excal_type rect = "rectangle" /\
    (forall i : string,
        i ∈ primitives.groupIds txt /\ i ∈ primitives.groupIds rect <-> i = g) /\
    (primitives.width txt, primitives.height txt) =
      primitives.text_extent content (TEXT_DEFAULTS (self s)) /\
    (primitives.width rect > primitives.width txt)%R /\
    (primitives.height rect > primitives.height txt)%R.
Proof.
  intros T B.
  eexists (primitives.append_groupId
             (primitives.Text content (TEXT_DEFAULTS (self s)) x y ∅
                (uuid.uuid4 (uuid_calls s))) _).
  eexists (primitives.append_groupId
             (primitives.Shape "rectangle" (BOX_DEFAULTS (self s)) x y _ _ ∅
                (uuid.uuid4 (S (uuid_calls s)))) _).
  exists (uuid.uuid4 (S (S (uuid_calls s)))). eexists.
  split; [apply TextBox_run|].
  simpl_state. cbn [primitives.class_of primitives.excal_type primitives.text
    primitives.groupIds primitives.width primitives.height
    primitives.append_groupId primitives.Text primitives.Shape].
  rewrite merge_style_empty.
  split; [done|]. split; [done|]. split; [done|]. split; [done|].
  split; [done|]. split; [done|]. split; [done|].
  split.
  { intros i. simpl. rewrite !list_elem_of_singleton. tauto. }
  split; [by destruct (primitives.text_extent _ _)|].
  split; lra.
Qed.

(** ** Binding arrows *)

(** The state after [create_binding_arrows(start, end, padding=padding)]. *)
Lemma create_binding_arrows_run (s : State) (start end_ : ref)
    (start_obj end_obj : primitives.ExcaliDrawPrimitive) (padding : R) :
  heap s !! start = Some start_obj ->
  heap s !! end_ = Some end_obj ->
  let angles := binding_angles (primitives.center start_obj) (primitives.center end_obj) in
  let line0 := primitives.Line "arrow" (LINE_DEFAULTS (self s))
                 (primitives.get_edge_midpoint start_obj angles.1 padding)
                 (primitives.get_edge_midpoint end_obj angles.2 padding)
                 (<["endArrowhead" := PyStr "arrow"]> ∅)
                 (uuid.uuid4 (uuid_calls s)) in
  create_binding_arrows start end_ None padding ∅ s =
  Ok (tt, registered
            (primitives.set_end_binding
               (primitives.set_start_binding line0 start_obj padding)
               end_obj padding) s).
Proof.
  intros Hs He angles line0.
  assert (start < length (heap s)) by (by eapply lookup_lt_Some).
  assert (end_ < length (heap s)) by (by eapply lookup_lt_Some).
  unfold create_binding_arrows. simpl default.
  rewrite (bind_Ok _ _ _ _ _ (deref_Some _ _ _ Hs)).
  rewrite (bind_Ok _ _ _ _ _ (deref_Some _ _ _ He)).
  cbv zeta. fold angles. destruct angles as [theta inverted_theta] eqn:Hangles.
  erewrite bind_Ok; last first.
  { apply Arrow_run. apply empty_kwargs_name_nothing. }
  cbn [fst snd] in line0. fold line0.
  unfold set_start_binding, set_end_binding.
  erewrite bind_Ok; last first.
  { erewrite bind_Ok; last first.
    { apply deref_Some. unfold registered. simpl_state. apply heap_lookup_snoc. }
    erewrite bind_Ok; last first.
    { apply deref_Some. unfold registered. simpl_state. by apply lookup_app_l_Some. }
    reflexivity. }
  unfold registered. simpl_state. rewrite heap_insert_snoc.
  erewrite bind_Ok; last first.
  { apply deref_Some. simpl_state. apply heap_lookup_snoc. }
  erewrite bind_Ok; last first.
  { apply deref_Some. simpl_state. by apply lookup_app_l_Some. }
  unfold store, with_heap. simpl_state. by rewrite heap_insert_snoc.
Qed.

(** C2, as the code has it. In [create_binding_arrows(start, end)] the arrow
    runs from [start.get_edge_midpoint(theta)] to
    [end.get_edge_midpoint(inverted_theta)], and Python computes both angles
    on floats, with [math.pi] for pi. [theta] is the arctangent angle
    [a = atan2(dy, dx)] of the difference of the centers up to rounding,
    within 2^-50 of it, as long as [a] is at most [pi - 2^-50]; from
    [pi - 2^-51] on, that is for [pi] and the float before it, [theta] is
    [-pi]. [inverted_theta] is [theta] moved by pi towards 0, up to rounding:
    within 2^-50 of [theta + pi] for a negative [theta], of [theta - pi]
    otherwise. [theta] lies in the interval [-pi, pi), closed at -pi and
    open at pi, and [inverted_theta] in the closed interval [-pi, pi]. *)
Theorem create_binding_arrows_angles (s : State) (start end_ : ref)
    (start_obj end_obj : primitives.ExcaliDrawPrimitive) (padding : R) :
  heap s !! start = Some start_obj ->
  heap s !! end_ = Some end_obj ->
  let center_start := primitives.center start_obj in
  let center_end := primitives.center end_obj in
  let a := math.atan2 (float_sub center_end.2 center_start.2)
             (float_sub center_end.1 center_start.1) in
  exists (theta inverted_theta : R) (line : primitives.ExcaliDrawPrimitive),
    (theta, inverted_theta) = binding_angles center_start center_end /\
    line = primitives.Line "arrow" (LINE_DEFAULTS (self s))
             (primitives.get_edge_midpoint start_obj theta padding)
             (primitives.get_edge_midpoint end_obj inverted_theta padding)
             (<["endArrowhead" := PyStr "arrow"]> ∅)
             (uuid.uuid4 (uuid_calls s)) /\
    create_binding_arrows start end_ None padding ∅ s =
      Ok (tt, registered
                (primitives.set_end_binding
                   (primitives.set_start_binding line start_obj padding)
                   end_obj padding) s) /\
    (a <= math.pi - binary64.bpow (-50) ->
     Rabs (theta - a) <= binary64.bpow (-50))%R /\
    (math.pi - binary64.bpow (-51) <= a -> theta = - math.pi)%R /\
    (theta < 0 ->
     Rabs (inverted_theta - (theta + math.pi)) <= binary64.bpow (-50))%R /\
    (0 <= theta ->
     Rabs (inverted_theta - (theta - math.pi)) <= binary64.bpow (-50))%R /\
    (- math.pi <= theta < math.pi)%R /\
    (- math.pi <= inverted_theta <= math.pi)%R.
Proof.
  intros Hs He center_start center_end a.
  pose proof (create_binding_arrows_run s start end_ _ _ padding Hs He) as Hrun.
  cbv zeta in Hrun. fold center_start center_end in Hrun.
  assert (binding_angles center_start center_end = normalized_angles a) as Hangles
    by reflexivity.
  rewrite Hangles in *.
  pose proof (math.atan2_range (float_sub center_end.2 center_start.2)
                (float_sub center_end.1 center_start.1)) as Ha.
  fold a in Ha.
  pose proof (start_angle_range a Ha) as Ht.
  pose proof (end_angle_range _ Ht) as (Hi & Hpos & Hneg).
  exists (normalized_angles a).1, (normalized_angles a).2. eexists.
  split; [by destruct (normalized_angles a)|].
  split; [reflexivity|]. split; [exact Hrun|].
  split. { intros Hle. apply start_angle_error. lra. }
  split. { intros Hge. apply start_angle_wraps. lra. }
  split; [exact Hneg|]. split; [exact Hpos|]. split; [exact Ht|exact Hi].
Qed.

(** C6, what the code does. [create_binding_arrows(start, end)] creates an
    arrow and registers it, and the call returns [None] (here [tt]), not the
    arrow: the body has no [return] statement. *)
Theorem create_binding_arrows_returns_None (s : State) (start end_ : ref)
    (start_obj end_obj : primitives.ExcaliDrawPrimitive) (padding : R) :
  heap s !! start = Some start_obj ->
  heap s !! end_ = Some end_obj ->
  exists (line : primitives.ExcaliDrawPrimitive) (s' : State),
    create_binding_arrows start end_ None padding ∅ s = Ok (tt, s') /\
    heap s !! length (heap s) = None /\
    heap s' !! length (heap s) = Some line /\
    draw_objs (self s') = draw_objs (self s) ++ [length (heap s)] /\
    primitives.class_of line = primitives.LineClass /\
    primitives.excal_type line = "arrow".
Proof.
  intros Hs He. eexists. eexists.
  split; [by eapply create_binding_arrows_run|].
  unfold registered. simpl_state.
  split; [by apply lookup_ge_None|].
  split; [apply heap_lookup_snoc|]. done.
Qed.

(** C10. [create_binding_arrows(start, end)] records the two bindings on
    the arrow it creates: the id of [start] with the padding as gap, and the
    id of [end] with the padding as gap. The arrow is a new object; every
    object there was before the call, [start] and [end] among them, is
    unchanged. *)
Theorem create_binding_arrows_binds_arrow_only (s : State) (start end_ : ref)
    (start_obj end_obj : primitives.ExcaliDrawPrimitive) (padding : R) :
  heap s !! start = Some start_obj ->
  heap s !! end_ = Some end_obj ->
  exists (line : primitives.ExcaliDrawPrimitive) (s' : State),
    create_binding_arrows start end_ None padding ∅ s = Ok (tt, s') /\
    heap s' = heap s ++ [line] /\
    heap s' !! start = Some start_obj /\
    heap s' !! end_ = Some end_obj /\
    primitives.startBinding line =
      Some {| primitives.elementId := primitives.id start_obj;
              primitives.gap := padding |} /\
    primitives.endBinding line =
      Some {| primitives.elementId := primitives.id end_obj;
              primitives.gap := padding |} /\
    (forall r obj, heap s !! r = Some obj -> heap s' !! r = Some obj).
Proof.
  intros Hs He. eexists. eexists.
  split; [by eapply create_binding_arrows_run|].
  unfold registered. simpl_state.
  split; [reflexivity|].
  split; [by apply lookup_app_l_Some|].
  split; [by apply lookup_app_l_Some|].
  split; [reflexivity|]. split; [reflexivity|].
  intros r obj Hr. by apply lookup_app_l_Some.
Qed.

(** ** Export *)

Lemma serialized_exists h objs :
  Forall (fun r => is_Some (h !! r)) objs -> exists entries, serialized h objs entries.
Proof.
  induction 1 as [|r objs [obj Hobj] _ [entries IH]].
  - exists []. constructor.
  - exists (primitives.export obj :: entries). constructor; [by exists obj|done].
Qed.

Lemma serialized_functional h objs entries1 entries2 :
  serialized h objs entries1 -> serialized h objs entries2 -> entries1 = entries2.
Proof.
  intros H1. revert entries2.
  induction H1 as [|r e1 objs es1 (o1 & Ho1 & ->) _ IH]; intros entries2 H2.
  - by inversion H2.
  - inversion H2 as [|r' e2 objs' es2 (o2 & Ho2 & ->) Hrest]; subst.
    f_equal; [congruence|by apply IH].
Qed.

(** The loop appends the entries of [objs] and nothing else. *)
Lemma export_elements_run (objs : list ref) (entries : list json) (s : State) :
  serialized (heap s) objs entries ->
  export_elements objs s =
  Ok (tt, with_self (with_elements (elements (data (self s)) ++ entries) (self s)) s).
Proof.
  unfold serialized. intros Hser.
  remember (heap s) as h eqn:Hh. revert s Hh.
  induction Hser as [|r entry objs entries (obj & Hobj & ->) _ IH]; intros s Hh;
    cbn [export_elements].
  - rewrite app_nil_r. unfold mret, M_ret. do 2 f_equal.
    destruct s as [[[] ? ? ? ?] ? ? ?]. reflexivity.
  - subst h. rewrite (bind_Ok _ _ _ _ _ (deref_Some _ _ _ Hobj)).
    unfold append_element at 1. unfold mbind at 1, M_bind at 1.
    rewrite IH by reflexivity. simpl_state. unfold with_self, with_elements. simpl_state.
    by rewrite <- app_assoc.
Qed.

Lemma split_nonempty sep s : split sep s <> [].
Proof.
  destruct s as [|c rest]; simpl; [done|].
  destruct (Ascii.eqb c sep); [done|]. by destruct (split sep rest).
Qed.

Lemma split_singleton sep s piece : split sep s = [piece] -> s = piece.
Proof.
  revert piece. induction s as [|c rest IH]; intros piece; simpl.
  - by intros [= <-].
  - destruct (Ascii.eqb c sep).
    + intros [= <- Hrest]. by destruct (split_nonempty sep rest).
    + destruct (split sep rest) as [|h t] eqn:Hsplit;
        [by destruct (split_nonempty sep rest)|].
      intros [= <- ->]. f_equal. by apply IH.
Qed.

Lemma last_cons_nonempty {A} (a : A) (l : list A) : l <> [] -> last (a :: l) = last l.
Proof. by destruct l. Qed.

(** A path whose part after the last dot is "excalidraw" is that word
    itself or ends in ".excalidraw". *)
Lemma split_last_extension (s : string) :
  last (split "." s) = Some "excalidraw" ->
  s = "excalidraw" \/ exists pre, s = pre +:+ ".excalidraw".
Proof.
  induction s as [|c rest IH]; simpl; [discriminate|].
  destruct (Ascii.eqb c ".") eqn:Hc.
  - apply Ascii.eqb_eq in Hc as ->.
    rewrite last_cons_nonempty by apply split_nonempty.
    intros Hlast. right. destruct (IH Hlast) as [->|[pre ->]].
    + by exists "".
    + by exists (String "." pre).
  - destruct (split "." rest) as [|h t] eqn:Hsplit.
    { by destruct (split_nonempty "." rest). }
    destruct t as [|h' t'].
    + cbn [last]. intros Hh. apply split_singleton in Hsplit. left. congruence.
    + change (last (String c h :: h' :: t')) with (last (h :: h' :: t')).
      intros Hlast. destruct (IH Hlast) as [->|[pre ->]].
      * discriminate Hsplit.
      * right. by exists (String c pre).
Qed.

Lemma endswith_app (pre suffix : string) : endswith (pre +:+ suffix) suffix = true.
Proof.
  induction pre as [|c pre IH].
  - change ("" +:+ suffix) with suffix.
    destruct suffix; cbn [endswith]; by rewrite String.eqb_refl.
  - change (String c pre +:+ suffix) with (String c (pre +:+ suffix)).
    cbn [endswith]. rewrite IH. apply orb_true_r.
Qed.

(** Lines 122-123 never raise: the path is kept or extended. *)
Lemma export_path_run (save_path : string) (s : State) :
  exists extension, last (split "." save_path) = Some extension /\
    export_path save_path s =
    Ok (if bool_decide (extension <> "excalidraw")
        then save_path +:+ ".excalidraw" else save_path, s).
Proof.
  destruct (last (split "." save_path)) as [extension|] eqn:Hlast.
  - exists extension. split; [done|]. unfold export_path, getitem_last. rewrite Hlast.
    unfold mbind, M_bind, mret, M_ret. by destruct (bool_decide _).
  - apply last_None in Hlast. by destruct (split_nonempty "." save_path).
Qed.

(** The path of lines 122-123 does not depend on the state. *)
Lemma export_path_state (save_path written : string) (s s' : State) :
  export_path save_path s = Ok (written, s) ->
  export_path save_path s' = Ok (written, s').
Proof.
  destruct (export_path_run save_path s) as (extension & Hlast & ->).
  destruct (export_path_run save_path s') as (extension' & Hlast' & ->).
  intros [= <-]. by assert (extension' = extension) as -> by congruence.
Qed.

(** The state after [export_to_file(save_path)], and the error when the file
    cannot be opened. *)
Lemma export_to_file_run (save_path : string) (entries : list json) (s : State) :
  serialized (heap s) (draw_objs (self s)) entries ->
  exists written,
    export_path save_path s = Ok (written, s) /\
    let sb' := with_elements (elements (data (self s)) ++ entries) (self s) in
    (os.writable written = true ->
     export_to_file save_path s =
     Ok (tt, with_files (<[written := data sb']> (files s)) (with_self sb' s))) /\
    (os.writable written = false ->
     export_to_file save_path s = Raise (OSError ("cannot open " +:+ written))).
Proof.
  intros Hser.
  destruct (export_path_run save_path s) as (extension & _ & Hpath).
  eexists. split; [exact Hpath|]. cbv zeta.
  unfold export_to_file.
  erewrite (bind_Ok get_self); last reflexivity.
  erewrite bind_Ok; last by apply export_elements_run.
  erewrite bind_Ok; last by eapply export_path_state.
  erewrite (bind_Ok get_self); last reflexivity.
  unfold write_file. split; intros ->; reflexivity.
Qed.

(** C4, as the code has it. [export_to_file] appends to the elements of
    the document one serialized entry for each reference of [draw_objs], that
    is one for each registration, in the order of registration, after what
    the list held before, and leaves the primitives and their registration
    as they are. On a builder that registered each primitive once and has
    not exported before, each registered primitive has exactly one entry, at
    the position of its registration. A second call appends the same
    entries once more. What [add_element] registers is what the next export
    appends last, whether or not the element was registered before. The call
    raises an [OSError] when the file cannot be opened. *)
Theorem export_appends_one_entry_per_primitive (s : State) (path1 path2 : string)
    (written1 written2 : string) (e : ref) (obj : primitives.ExcaliDrawPrimitive) :
  live_objs s ->
  export_path path1 s = Ok (written1, s) -> os.writable written1 = true ->
  export_path path2 s = Ok (written2, s) -> os.writable written2 = true ->
  heap s !! e = Some obj ->
  exists (entries : list json) (s1 s2 se s3 : State),
    serialized (heap s) (draw_objs (self s)) entries /\
    length entries = length (draw_objs (self s)) /\
    export_to_file path1 s = Ok (tt, s1) /\
    elements (data (self s1)) = elements (data (self s)) ++ entries /\
    draw_objs (self s1) = draw_objs (self s) /\
    heap s1 = heap s /\
    (NoDup (draw_objs (self s)) -> elements (data (self s)) = [] ->
     forall r o, r ∈ draw_objs (self s) -> heap s !! r = Some o ->
       exists i, draw_objs (self s) !! i = Some r /\
         elements (data (self s1)) !! i = Some (primitives.export o) /\
         forall j, draw_objs (self s) !! j = Some r -> j = i) /\
    export_to_file path2 s1 = Ok (tt, s2) /\
    elements (data (self s2)) = elements (data (self s)) ++ entries ++ entries /\
    add_element e s = Ok (e, se) /\
    draw_objs (self se) = draw_objs (self s) ++ [e] /\
    export_to_file path1 se = Ok (tt, s3) /\
    elements (data (self s3)) =
      elements (data (self s)) ++ entries ++ [primitives.export obj] /\
    (forall path written, export_path path s = Ok (written, s) ->
       os.writable written = false ->
       exists msg, export_to_file path s = Raise (OSError msg)).
Proof.
  intros Hlive Hpath1 Hw1 Hpath2 Hw2 He.
  destruct (serialized_exists _ _ Hlive) as [entries Hser].
  destruct (export_to_file_run path1 entries s Hser) as (w1 & Hp1 & Hrun1 & _).
  cbv zeta in Hrun1.
  assert (w1 = written1) as -> by congruence. specialize (Hrun1 Hw1).
  match type of Hrun1 with _ = Ok (_, ?s1) =>
    destruct (export_to_file_run path2 entries s1 Hser) as (w2 & Hp2 & Hrun2 & _);
    pose proof (export_path_state _ _ _ s1 Hpath2) as Hp2'
  end.
  cbv zeta in Hrun2.
  assert (w2 = written2) as -> by congruence. specialize (Hrun2 Hw2).
  set (se := with_self (with_draw_objs (draw_objs (self s) ++ [e]) (self s)) s).
  assert (serialized (heap se) (draw_objs (self se))
            (entries ++ [primitives.export obj])) as Hser'.
  { apply Forall2_app; [exact Hser|]. constructor; [by exists obj|constructor]. }
  destruct (export_to_file_run path1 _ se Hser') as (w3 & Hp3 & Hrun3 & _).
  cbv zeta in Hrun3.
  pose proof (export_path_state _ _ _ se Hpath1) as Hp3'.
  assert (w3 = written1) as -> by congruence. specialize (Hrun3 Hw1).
  eexists entries, _, _, se, _.
  split; [exact Hser|].
  split; [symmetry; by eapply Forall2_length|].
  split; [exact Hrun1|].
  split; [reflexivity|]. split; [reflexivity|]. split; [reflexivity|].
  split.
  { intros Hnodup Hempty r o Hin Hr. simpl_state. rewrite Hempty. cbn [app].
    apply list_elem_of_lookup in Hin as [i Hi]. exists i. split; [exact Hi|]. split.
    - unfold serialized in Hser.
      destruct (Forall2_lookup_l _ _ _ _ _ Hser Hi) as (entry & Hentry & o' & Ho' & ->).
      assert (o' = o) as -> by (unfold ref in *; congruence). exact Hentry.
    - intros j Hj. by eapply NoDup_lookup. }
  split; [exact Hrun2|].
  split; [simpl_state; by rewrite <- app_assoc|].
  split; [reflexivity|]. split; [reflexivity|].
  split; [exact Hrun3|].
  split; [simpl_state; reflexivity|].
  intros path written Hpath Hw.
  destruct (export_to_file_run path entries s Hser) as (w & Hp & _ & Hraise).
  assert (w = written) as -> by congruence. eexists. by apply Hraise.
Qed.

(** C7, what the code does. The file is written under a path that ends in
    ".excalidraw", with one exception: the path "excalidraw" has no dot, its
    only part is "excalidraw", and it is left as it is, without the
    extension. *)
Theorem export_path_extension (save_path : string) (s : State) :
  (exists written, export_path save_path s = Ok (written, s) /\
     (endswith written ".excalidraw" = true \/
      save_path = "excalidraw" /\ written = "excalidraw")) /\
  export_path "excalidraw" s = Ok ("excalidraw", s) /\
  endswith "excalidraw" ".excalidraw" = false.
Proof.
  split; [|split; reflexivity].
  destruct (export_path_run save_path s) as (extension & Hlast & ->).
  eexists. split; [reflexivity|].
  case_bool_decide as Hext.
  - left. apply endswith_app.
  - subst extension.
    destruct (split_last_extension _ Hlast) as [->|[pre ->]].
    + by right.
    + left. apply endswith_app.
Qed.

End Properties.

(** ** The properties on the small instance *)

(** The scene of the instance is what two calls of [Rectangle] build. *)
Lemma demo_scene_built :
  exists s1 : State,
    Rectangle 100 100 50 50 ∅ (new_state demo.builder) = Ok (0, s1) /\
    Rectangle 300 100 50 50 ∅ s1 = Ok (1, demo.scene).
Proof.
  eexists. split.
  - apply Rectangle_run, empty_kwargs_name_nothing.
  - rewrite Rectangle_run by apply empty_kwargs_name_nothing. reflexivity.
Qed.

Lemma demo_scene_live : live_objs demo.scene.
Proof. do 2 apply registered_live_objs. constructor. Qed.

(** C1 on the scene: a bounding rectangle around the first rectangle. *)
Lemma create_bounding_element_default_witness :
  heap demo.scene !! 0 = Some demo.rect1 /\
  exists (rect : primitives.ExcaliDrawPrimitive) (s' : State),
    create_bounding_element 0 None 10 ∅ demo.scene = Ok (2, s') /\
    heap s' !! 2 = Some rect /\
    primitives.width rect = (50 + 2 * 10)%R /\
    primitives.height rect = (50 + 2 * 10)%R /\
    primitives.groupIds rect = ["uuuu"].
Proof.
  split; [reflexivity|].
  destruct (create_bounding_element_default demo.scene 0 demo.rect1 10 eq_refl)
    as (rect & s' & Hrun & _ & _ & HB & _ & _ & Hw & Hh & _ & _ & _ & _ & Hg & _).
  exists rect, s'. repeat split; assumption.
Defined.

(** The angles between the two rectangles of the scene: the second one lies
    straight to the right of the first. *)
Lemma demo_scene_angles :
  binding_angles (100, 100)%R (300, 100)%R = (0, - math.pi)%R.
Proof.
  unfold binding_angles. cbn [fst snd]. unfold float_sub.
  replace (100 - 100)%R with 0%R by lra. replace (300 - 100)%R with 200%R by lra.
  rewrite round_0.
  assert (binary64.round 200 = 200%R) as ->.
  { apply (round_exact _ 25 3); [lia|lia|]. rewrite bpow_3. lra. }
  assert (math.atan2 0 200 = 0%R) as ->.
  { cbn [math.atan2 demo.libm].
    assert (demo.arctan2 0 200 = 0%R) as ->.
    { unfold demo.arctan2. destruct (Rlt_dec 0 200); [|lra].
      unfold Rdiv. by rewrite Rmult_0_l, atan_0. }
    rewrite round_0. unfold math.pi. rewrite Rmin_right by lra.
    apply Rmax_right. lra. }
  apply normalized_angles_0.
Qed.

(** C2 on the scene: an arrow from the first rectangle to the second. *)
Lemma create_binding_arrows_angles_witness :
  heap demo.scene !! 0 = Some demo.rect1 /\
  heap demo.scene !! 1 = Some demo.rect2 /\
  exists theta inverted_theta : R,
    (theta, inverted_theta) = binding_angles (100, 100)%R (300, 100)%R /\
    (- math.pi <= theta < math.pi)%R /\
    (- math.pi <= inverted_theta <= math.pi)%R.
Proof.
  split; [reflexivity|]. split; [reflexivity|].
  destruct (create_binding_arrows_angles demo.scene 0 1 demo.rect1 demo.rect2 10
              eq_refl eq_refl)
    as (theta & inverted_theta & line & Hangles & _ & _ & _ & _ & _ & _ & Ht & Hi).
  exists theta, inverted_theta. repeat split; try assumption; tauto.
Defined.

(** C2, the claim as stated, fails for an end element straight to the right
    of the start element: [atan2(0, 200)] is 0, the first normalization keeps
    0, and [0 % (2*pi) - pi] is [-math.pi], which the interval (-pi, pi] does
    not contain. *)
Lemma binding_angles_end_angle_outside_half_open_interval :
  ~ (- math.pi < (binding_angles (100, 100)%R (300, 100)%R).2 <= math.pi)%R.
Proof. rewrite demo_scene_angles. cbn [snd]. lra. Qed.

(** C4 on the scene: two entries, two more at the second call, and a third
    one after [add_element]. *)
Lemma export_appends_one_entry_per_primitive_witness :
  live_objs demo.scene /\
  os.writable "sketch.excalidraw" = true /\
  heap demo.scene !! 0 = Some demo.rect1 /\
  exists (entries : list json) (s1 s2 se s3 : State),
    length entries = 2 /\
    export_to_file "sketch" demo.scene = Ok (tt, s1) /\
    elements (data (self s1)) = entries /\
    export_to_file "sketch" s1 = Ok (tt, s2) /\
    elements (data (self s2)) = entries ++ entries /\
    add_element 0 demo.scene = Ok (0, se) /\
    export_to_file "sketch" se = Ok (tt, s3) /\
    elements (data (self s3)) = entries ++ [primitives.export demo.rect1].
Proof.
  assert (os.writable "sketch.excalidraw" = true) as Hw by reflexivity.
  split; [exact demo_scene_live|]. split; [exact Hw|]. split; [reflexivity|].
  destruct (export_appends_one_entry_per_primitive demo.scene "sketch" "sketch"
              "sketch.excalidraw" "sketch.excalidraw" 0 demo.rect1
              demo_scene_live eq_refl Hw eq_refl Hw eq_refl)
    as (entries & s1 & s2 & se & s3 & _ & Hlen & Hrun1 & Hel1 & _ & _ & _
        & Hrun2 & Hel2 & Hadd & _ & Hrun3 & Hel3 & _).
  exists entries, s1, s2, se, s3. repeat split; assumption.
Defined.

(** C4, the claim as stated, fails once a registered primitive is handed to
    [add_element] again: the builder of the scene holds two primitives, and
    after [add_element] on the first one a single export appends three
    entries, the entry of the first rectangle twice. *)
Lemma registered_twice_exported_twice :
  exists (s1 s2 : State),
    add_element 0 demo.scene = Ok (0, s1) /\
    export_to_file "sketch" s1 = Ok (tt, s2) /\
    heap s2 = [demo.rect1; demo.rect2] /\
    elements (data (self s2)) =
      [primitives.export demo.rect1; primitives.export demo.rect2;
       primitives.export demo.rect1] /\
    ~ NoDup (elements (data (self s2))).
Proof.
  eexists _, _. split; [reflexivity|].
  assert (serialized (heap demo.scene) [0; 1; 0]
            [primitives.export demo.rect1; primitives.export demo.rect2;
             primitives.export demo.rect1]) as Hser.
  { repeat constructor; eexists; (split; [reflexivity|reflexivity]). }
  match goal with |- export_to_file _ ?s1 = _ /\ _ =>
    destruct (export_to_file_run "sketch" _ s1 Hser) as (written & Hpath & Hrun & _)
  end.
  assert (written = "sketch.excalidraw") as ->.
  { match type of Hpath with export_path _ ?s1 = _ =>
      assert (export_path "sketch" s1 = Ok ("sketch.excalidraw", s1)) as Hp
        by reflexivity
    end.
    rewrite Hp in Hpath. by injection Hpath as <-. }
  cbv zeta in Hrun. specialize (Hrun eq_refl).
  split; [exact Hrun|]. split; [reflexivity|]. split; [reflexivity|].
  intros Hnodup.
  change (NoDup [primitives.export demo.rect1; primitives.export demo.rect2;
                 primitives.export demo.rect1]) in Hnodup.
  apply NoDup_cons in Hnodup as [Hnotin _]. apply Hnotin.
  apply elem_of_cons. right. apply elem_of_cons. by left.
Qed.

(** C3 on the instance: no table has a key named colour, and none has a key
    named self. *)
Lemma init_raises_iff_unrecognized_key_witness :
  ~ recognized initial_builder "self" /\
  (exists e, __init__ [("colour", PyStr "red")] = Raise e) /\
  (exists sb, __init__ demo.dot_defaults = Ok sb).
Proof.
  assert (forall key, BOX_DEFAULTS initial_builder !! key = None ->
            LINE_DEFAULTS initial_builder !! key = None ->
            TEXT_DEFAULTS initial_builder !! key = None ->
            ~ recognized initial_builder key) as Hnot.
  { intros key Hb Hl Ht [[v Hv]|[[v Hv]|[v Hv]]]; congruence. }
  assert (~ recognized initial_builder "self") as Hself
    by (apply Hnot; reflexivity).
  split; [exact Hself|].
  destruct (init_raises_iff_unrecognized_key [("colour", PyStr "red")] Hself)
    as (Hraise & _ & _).
  destruct (init_raises_iff_unrecognized_key demo.dot_defaults Hself)
    as (_ & Hok & _).
  split.
  - apply Hraise. exists "colour". split; [apply elem_of_cons; by left|].
    repeat split; reflexivity.
  - apply Hok. intros key Hkey. apply list_elem_of_singleton in Hkey as ->.
    right. left. by eexists.
Defined.

(** C5 on the instance: the key of the line profile ends in the box profile,
    and the line profile keeps its own value. *)
Lemma init_writes_box_profile_only_witness :
  exists sb : SketchBuilder,
    __init__ demo.dot_defaults = Ok sb /\
    BOX_DEFAULTS sb !! "endArrowhead" = Some (PyStr "dot") /\
    LINE_DEFAULTS sb !! "endArrowhead" = Some PyNone /\
    BOX_DEFAULTS demo.builder !! "endArrowhead" = None.
Proof.
  eexists. split; [vm_compute; reflexivity|].
  match goal with |- BOX_DEFAULTS ?sb !! _ = _ /\ _ =>
    destruct (init_writes_box_profile_only demo.dot_defaults sb)
      as (Hline & _ & Hbox & _); [vm_compute; reflexivity|]
  end.
  split.
  - apply Hbox; [|apply elem_of_cons; by left].
    apply NoDup_singleton.
  - split; [|reflexivity]. rewrite Hline. reflexivity.
Defined.

(** C6 on the scene. *)
Lemma create_binding_arrows_returns_None_witness :
  heap demo.scene !! 0 = Some demo.rect1 /\
  heap demo.scene !! 1 = Some demo.rect2 /\
  exists (line : primitives.ExcaliDrawPrimitive) (s' : State),
    create_binding_arrows 0 1 None 10 ∅ demo.scene = Ok (tt, s') /\
    draw_objs (self s') = [0; 1; 2] /\
    heap s' !! 2 = Some line /\
    primitives.excal_type line = "arrow".
Proof.
  split; [reflexivity|]. split; [reflexivity|].
  destruct (create_binding_arrows_returns_None demo.scene 0 1 demo.rect1 demo.rect2 10
              eq_refl eq_refl)
    as (line & s' & Hrun & _ & Hline & Hobjs & _ & Htype).
  exists line, s'. repeat split; assumption.
Defined.

(** C8 on the instance: the caller's dot at the end gives way to the arrow. *)
Lemma line_arrow_doublearrow_configurations_witness :
  Forall (fun p => demo.dot_kwargs !! p = None) ["self"; "start_pt"; "end_pt"] /\
  exists line arrow double : primitives.ExcaliDrawPrimitive,
    Line (0, 0)%R (1, 1)%R demo.dot_kwargs (new_state demo.builder)
      = Ok (0, registered line (new_state demo.builder)) /\
    Arrow (0, 0)%R (1, 1)%R demo.dot_kwargs (new_state demo.builder)
      = Ok (0, registered arrow (new_state demo.builder)) /\
    DoubleArrow (0, 0)%R (1, 1)%R demo.dot_kwargs (new_state demo.builder)
      = Ok (0, registered double (new_state demo.builder)) /\
    primitives.endArrowhead arrow = Some (PyStr "arrow") /\
    primitives.startArrowhead double = Some (PyStr "arrow") /\
    primitives.endArrowhead double = Some (PyStr "arrow").
Proof.
  assert (Forall (fun p => demo.dot_kwargs !! p = None) ["self"; "start_pt"; "end_pt"])
    as Hk by (repeat constructor).
  split; [exact Hk|].
  destruct (line_arrow_doublearrow_configurations (new_state demo.builder)
              (0, 0)%R (1, 1)%R demo.dot_kwargs Hk)
    as (Hline & Harrow & Hdouble & _ & _ & _ & _ & _ & Hend & Hstart' & Hend').
  eexists _, _, _. repeat split; eassumption.
Defined.

(** C10 on the scene. *)
Lemma create_binding_arrows_binds_arrow_only_witness :
  heap demo.scene !! 0 = Some demo.rect1 /\
  heap demo.scene !! 1 = Some demo.rect2 /\
  exists (line : primitives.ExcaliDrawPrimitive) (s' : State),
    create_binding_arrows 0 1 None 10 ∅ demo.scene = Ok (tt, s') /\
    heap s' = [demo.rect1; demo.rect2; line] /\
    primitives.startBinding line =
      Some {| primitives.elementId := "u"; primitives.gap := 10 |} /\
    primitives.endBinding line =
      Some {| primitives.elementId := "uu"; primitives.gap := 10 |}.
Proof.
  split; [reflexivity|]. split; [reflexivity|].
  destruct (create_binding_arrows_binds_arrow_only demo.scene 0 1 demo.rect1 demo.rect2 10
              eq_refl eq_refl)
    as (line & s' & Hrun & Hheap & _ & _ & Hstart & Hend & _).
  exists line, s'. repeat split; assumption.
Defined.

(** * Further properties *)

Section MoreProperties.
Context {tables : defaults.tables} {gen : uuid.generator} {meths : primitives.methods}.
Context {libm : math.libm} {fs : os.filesystem}.

Ltac state_simpl :=
  cbn [heap self uuid_calls files with_heap with_self with_uuid_calls with_files
       draw_objs data BOX_DEFAULTS LINE_DEFAULTS TEXT_DEFAULTS with_draw_objs
       with_elements elements registered grouped exported] in *.

Lemma bind_Ok_inv {A B} (c : M A) (k : A -> M B) s b s' :
  (c ≫= k) s = Ok (b, s') ->
  exists a s1, c s = Ok (a, s1) /\ k a s1 = Ok (b, s').
Proof.
  unfold mbind, M_bind. destruct (c s) as [[a s1]|e]; [|discriminate].
  intros Hk. by exists a, s1.
Qed.

Lemma check_kwargs_inv params (kwargs : pydict) s u s' :
  check_kwargs params kwargs s = Ok (u, s') ->
  s' = s /\ Forall (fun p => kwargs !! p = None) params.
Proof.
  unfold check_kwargs.
  destruct (list_find _ params) as [[i p]|] eqn:Hfind; [discriminate|].
  intros [= _ <-]. split; [done|].
  apply list_find_None in Hfind. eapply Forall_impl; [exact Hfind|].
  intros p Hp. simpl in Hp. by apply eq_None_not_Some.
Qed.

(** A key of [kwargs] among [params] makes the call raise [TypeError]. *)
Lemma check_kwargs_clash params (kwargs : pydict) s p :
  p ∈ params -> is_Some (kwargs !! p) ->
  exists msg, check_kwargs params kwargs s = Raise (TypeError msg).
Proof.
  intros Hin Hsome. unfold check_kwargs.
  destruct (list_find _ params) as [[i q]|] eqn:Hfind; [by eexists|].
  apply list_find_None in Hfind. rewrite Forall_forall in Hfind.
  by destruct (Hfind p Hin).
Qed.


Lemma shape_method_run (f : shape_factory) (s : State) (x y width height : R)
    (kwargs : pydict) :
  Forall (fun p => kwargs !! p = None) ["self"; "x"; "y"; "width"; "height"] ->
  shape_method f x y width height kwargs s =
  Ok (length (heap s),
      registered (primitives.Shape (shape_kind f) (BOX_DEFAULTS (self s)) x y width height
                    kwargs (uuid.uuid4 (uuid_calls s))) s).
Proof.
  intros Hk. destruct f; cbn [shape_method shape_kind];
    unfold Rectangle, Diamond, Ellipse;
    rewrite (bind_Ok _ _ _ _ _ (check_kwargs_None _ _ s Hk)); reflexivity.
Qed.

Lemma shape_method_inv (f : shape_factory) (s s' : State) (x y width height : R)
    (kwargs : pydict) (r : ref) :
  shape_method f x y width height kwargs s = Ok (r, s') ->
  Forall (fun p => kwargs !! p = None) ["self"; "x"; "y"; "width"; "height"] /\
  r = length (heap s) /\
  s' = registered (primitives.Shape (shape_kind f) (BOX_DEFAULTS (self s)) x y width height
                     kwargs (uuid.uuid4 (uuid_calls s))) s.
Proof.
  intros Hrun.
  assert (exists u s1, check_kwargs ["self"; "x"; "y"; "width"; "height"] kwargs s
                       = Ok (u, s1)) as (u & s1 & Hcheck).
  { destruct f; cbn [shape_method] in Hrun; unfold Rectangle, Diamond, Ellipse in Hrun;
      apply bind_Ok_inv in Hrun as (u & s1 & Hcheck & _); by exists u, s1. }
  apply check_kwargs_inv in Hcheck as [_ Hk]. split; [done|].
  rewrite shape_method_run in Hrun by done. by injection Hrun as <- <-.
Qed.



Lemma line_method_run (f : line_factory) (s : State) (start_pt end_pt : R * R)
    (kwargs : pydict) :
  Forall (fun p => kwargs !! p = None) ["self"; "start_pt"; "end_pt"] ->
  line_method f start_pt end_pt kwargs s =
  Ok (length (heap s),
      registered (primitives.Line (line_kind f) (LINE_DEFAULTS (self s)) start_pt end_pt
                    (line_kwargs f kwargs) (uuid.uuid4 (uuid_calls s))) s).
Proof.
  intros Hk. destruct f; cbn [line_method line_kind line_kwargs].
  - by apply Line_run.
  - by apply Arrow_run.
  - by apply DoubleArrow_run.
Qed.

Lemma line_method_inv (f : line_factory) (s s' : State) (start_pt end_pt : R * R)
    (kwargs : pydict) (r : ref) :
  line_method f start_pt end_pt kwargs s = Ok (r, s') ->
  Forall (fun p => kwargs !! p = None) ["self"; "start_pt"; "end_pt"] /\
  r = length (heap s) /\
  s' = registered (primitives.Line (line_kind f) (LINE_DEFAULTS (self s)) start_pt end_pt
                     (line_kwargs f kwargs) (uuid.uuid4 (uuid_calls s))) s.
Proof.
  intros Hrun.
  assert (exists u s1, check_kwargs ["self"; "start_pt"; "end_pt"] kwargs s
                       = Ok (u, s1)) as (u & s1 & Hcheck).
  { destruct f; cbn [line_method] in Hrun; unfold Line, Arrow, DoubleArrow in Hrun;
      apply bind_Ok_inv in Hrun as (u & s1 & Hcheck & _); by exists u, s1. }
  apply check_kwargs_inv in Hcheck as [_ Hk]. split; [done|].
  rewrite line_method_run in Hrun by done. by injection Hrun as <- <-.
Qed.

Lemma Text_inv (s s' : State) (content : string) (x y : R) (kwargs : pydict) (r : ref) :
  Text content x y kwargs s = Ok (r, s') ->
  Forall (fun p => kwargs !! p = None) ["self"; "text"; "x"; "y"] /\
  r = length (heap s) /\
  s' = registered (primitives.Text content (TEXT_DEFAULTS (self s)) x y kwargs
                     (uuid.uuid4 (uuid_calls s))) s.
Proof.
  intros Hrun. pose proof Hrun as Hrun'. unfold Text in Hrun'.
  apply bind_Ok_inv in Hrun' as (u & s1 & Hcheck & _).
  apply check_kwargs_inv in Hcheck as [_ Hk]. split; [done|].
  rewrite Text_run in Hrun by done. by injection Hrun as <- <-.
Qed.


Lemma groupIds_append_run (s : State) (r : ref) (g : string) :
  is_Some (heap s !! r) ->
  groupIds_append r g s = Ok (tt, with_heap (append_group r g (heap s)) s).
Proof.
  intros [obj Hobj]. rewrite (groupIds_append_Some _ _ _ _ Hobj).
  unfold append_group. by rewrite Hobj.
Qed.

Lemma groupIds_append_inv (s s' : State) (r : ref) (g : string) (u : unit) :
  groupIds_append r g s = Ok (u, s') ->
  is_Some (heap s !! r) /\ s' = with_heap (append_group r g (heap s)) s.
Proof.
  intros Hrun. destruct (heap s !! r) as [obj|] eqn:Hobj.
  - split; [by eexists|]. rewrite groupIds_append_run in Hrun by (by eexists).
    by injection Hrun as <-.
  - unfold groupIds_append, deref, mbind, M_bind in Hrun. by rewrite Hobj in Hrun.
Qed.

Lemma append_group_length r g h : length (append_group r g h) = length h.
Proof. unfold append_group. destruct (h !! r); [apply length_insert|done]. Qed.

Lemma append_group_lookup_is_Some r g h r' :
  is_Some (append_group r g h !! r') <-> is_Some (h !! r').
Proof. by rewrite !lookup_lt_is_Some, append_group_length. Qed.

(** The state after [create_bounding_element], for any of the builder's
    shape methods as factory and any keyword arguments that pass. *)
Lemma create_bounding_element_effects (s : State) (E : ref)
    (obj : primitives.ExcaliDrawPrimitive) (function : option shape_factory)
    (p : R) (kwargs : pydict) :
  heap s !! E = Some obj ->
  Forall (fun k => kwargs !! k = None) ["self"; "x"; "y"; "width"; "height"] ->
  let rect0 := primitives.Shape (shape_kind (default UseRectangle function))
                 (BOX_DEFAULTS (self s))
                 (primitives.x obj) (primitives.y obj)
                 (primitives.width obj + 2 * p) (primitives.height obj + 2 * p) kwargs
                 (uuid.uuid4 (uuid_calls s)) in
  create_bounding_element E (shape_method <$> function) p kwargs s =
  Ok (length (heap s), grouped E (length (heap s)) (registered rect0 s)).
Proof.
  intros HE Hk rect0.
  assert (E < length (heap s)) as Hlt by (by eapply lookup_lt_Some).
  assert (default Rectangle (shape_method <$> function)
          = shape_method (default UseRectangle function)) as Hfun by (by destruct function).
  unfold create_bounding_element. rewrite Hfun.
  rewrite (bind_Ok _ _ _ _ _ (deref_Some _ _ _ HE)). cbv zeta.
  erewrite bind_Ok; last first.
  { apply check_kwargs_None. by apply Forall_cons in Hk as [_ Hk]. }
  erewrite bind_Ok; last by apply shape_method_run.
  cbn [primitives.center fst snd]. fold rect0.
  unfold uuid4 at 1. unfold mbind at 1, M_bind at 1.
  erewrite bind_Ok; last first.
  { apply groupIds_append_run. state_simpl. apply lookup_lt_is_Some.
    rewrite length_app. simpl. lia. }
  erewrite bind_Ok; last first.
  { apply groupIds_append_run. state_simpl. apply append_group_lookup_is_Some.
    apply lookup_lt_is_Some. rewrite length_app. simpl. lia. }
  reflexivity.
Qed.

Lemma create_bounding_element_inv (s s' : State) (E B : ref)
    (function : option shape_factory) (p : R) (kwargs : pydict) :
  create_bounding_element E (shape_method <$> function) p kwargs s = Ok (B, s') ->
  exists obj : primitives.ExcaliDrawPrimitive,
    heap s !! E = Some obj /\
    Forall (fun k => kwargs !! k = None) ["self"; "x"; "y"; "width"; "height"] /\
    B = length (heap s) /\
    s' = grouped E (length (heap s))
           (registered
              (primitives.Shape (shape_kind (default UseRectangle function))
                 (BOX_DEFAULTS (self s))
                 (primitives.x obj) (primitives.y obj)
                 (primitives.width obj + 2 * p) (primitives.height obj + 2 * p) kwargs
                 (uuid.uuid4 (uuid_calls s))) s).
Proof.
  intros Hrun. pose proof Hrun as Hrun'.
  assert (default Rectangle (shape_method <$> function)
          = shape_method (default UseRectangle function)) as Hfun by (by destruct function).
  unfold create_bounding_element in Hrun'. rewrite Hfun in Hrun'.
  apply bind_Ok_inv in Hrun' as (obj' & s1 & Hderef & Hrest).
  unfold deref in Hderef. destruct (heap s !! E) as [obj|] eqn:HE; [|discriminate].
  injection Hderef as <- <-. cbv zeta in Hrest.
  apply bind_Ok_inv in Hrest as (u & s2 & Hcheck & Hrest).
  apply check_kwargs_inv in Hcheck as [-> _].
  apply bind_Ok_inv in Hrest as (b & s3 & Hshape & _).
  apply shape_method_inv in Hshape as (Hk & _ & _).
  exists obj. split; [done|]. split; [done|].
  rewrite (create_bounding_element_effects s E obj function p kwargs HE Hk) in Hrun.
  by injection Hrun as <- <-.
Qed.

(** The state after [create_binding_arrows], for any of the builder's line
    methods as factory and any keyword arguments that pass. *)
Lemma create_binding_arrows_effects (s : State) (start end_ : ref)
    (start_obj end_obj : primitives.ExcaliDrawPrimitive) (arrow : option line_factory)
    (padding : R) (kwargs : pydict) :
  heap s !! start = Some start_obj ->
  heap s !! end_ = Some end_obj ->
  Forall (fun k => kwargs !! k = None) ["self"; "start_pt"; "end_pt"] ->
  let angles := binding_angles (primitives.center start_obj) (primitives.center end_obj) in
  let f := default UseArrow arrow in
  let line0 := primitives.Line (line_kind f) (LINE_DEFAULTS (self s))
                 (primitives.get_edge_midpoint start_obj angles.1 padding)
                 (primitives.get_edge_midpoint end_obj angles.2 padding)
                 (line_kwargs f kwargs)
                 (uuid.uuid4 (uuid_calls s)) in
  create_binding_arrows start end_ (line_method <$> arrow) padding kwargs s =
  Ok (tt, registered
            (primitives.set_end_binding
               (primitives.set_start_binding line0 start_obj padding)
               end_obj padding) s).
Proof.
  intros Hs He Hk angles f line0.
  assert (start < length (heap s)) by (by eapply lookup_lt_Some).
  assert (end_ < length (heap s)) by (by eapply lookup_lt_Some).
  assert (default Arrow (line_method <$> arrow) = line_method f) as Hfun
    by (by destruct arrow).
  unfold create_binding_arrows. rewrite Hfun.
  rewrite (bind_Ok _ _ _ _ _ (deref_Some _ _ _ Hs)).
  rewrite (bind_Ok _ _ _ _ _ (deref_Some _ _ _ He)).
  cbv zeta. fold angles. destruct angles as [theta inverted_theta] eqn:Hangles.
  erewrite bind_Ok; last by apply line_method_run.
  cbn [fst snd] in line0. fold line0.
  unfold set_start_binding, set_end_binding.
  erewrite bind_Ok; last first.
  { erewrite bind_Ok; last first.
    { apply deref_Some. state_simpl. apply heap_lookup_snoc. }
    erewrite bind_Ok; last first.
    { apply deref_Some. state_simpl. by apply lookup_app_l_Some. }
    reflexivity. }
  state_simpl. rewrite heap_insert_snoc.
  erewrite bind_Ok; last first.
  { apply deref_Some. state_simpl. apply heap_lookup_snoc. }
  erewrite bind_Ok; last first.
  { apply deref_Some. state_simpl. by apply lookup_app_l_Some. }
  unfold store, with_heap. state_simpl. by rewrite heap_insert_snoc.
Qed.

Lemma create_binding_arrows_inv (s s' : State) (start end_ : ref)
    (arrow : option line_factory) (padding : R) (kwargs : pydict) (u : unit) :
  create_binding_arrows start end_ (line_method <$> arrow) padding kwargs s = Ok (u, s') ->
  exists start_obj end_obj : primitives.ExcaliDrawPrimitive,
    heap s !! start = Some start_obj /\
    heap s !! end_ = Some end_obj /\
    Forall (fun k => kwargs !! k = None) ["self"; "start_pt"; "end_pt"] /\
    let angles := binding_angles (primitives.center start_obj)
                    (primitives.center end_obj) in
    let f := default UseArrow arrow in
    s' = registered
           (primitives.set_end_binding
              (primitives.set_start_binding
                 (primitives.Line (line_kind f) (LINE_DEFAULTS (self s))
                    (primitives.get_edge_midpoint start_obj angles.1 padding)
                    (primitives.get_edge_midpoint end_obj angles.2 padding)
                    (line_kwargs f kwargs) (uuid.uuid4 (uuid_calls s)))
                 start_obj padding)
              end_obj padding) s.
Proof.
  intros Hrun. pose proof Hrun as Hrun'.
  assert (default Arrow (line_method <$> arrow) = line_method (default UseArrow arrow))
    as Hfun by (by destruct arrow).
  unfold create_binding_arrows in Hrun'. rewrite Hfun in Hrun'.
  apply bind_Ok_inv in Hrun' as (so' & s1 & Hderef & Hrest).
  unfold deref in Hderef. destruct (heap s !! start) as [so|] eqn:Hs; [|discriminate].
  injection Hderef as <- <-.
  apply bind_Ok_inv in Hrest as (eo' & s1 & Hderef & Hrest).
  unfold deref in Hderef. destruct (heap s !! end_) as [eo|] eqn:He; [|discriminate].
  injection Hderef as <- <-. cbv zeta in Hrest.
  destruct (binding_angles _ _) as [theta inverted_theta] eqn:Hangles.
  apply bind_Ok_inv in Hrest as (l & s2 & Hline & _).
  apply line_method_inv in Hline as (Hk & _ & _).
  exists so, eo. split; [done|]. split; [done|]. split; [done|]. cbv zeta.
  rewrite (create_binding_arrows_effects s start end_ so eo arrow padding kwargs Hs He Hk)
    in Hrun.
  by injection Hrun as <-.
Qed.



Lemma textbox_padding_run (rect_kwargs : pydict) (s : State) :
  match rect_kwargs !! "padding" with
  | Some v => as_number v
  | None => mret 10%R
  end s =
  match textbox_padding rect_kwargs with
  | Some p => Ok (p, s)
  | None => Raise (TypeError "unsupported operand type(s)")
  end.
Proof.
  unfold textbox_padding. destruct (rect_kwargs !! "padding") as [[| | |]|]; reflexivity.
Qed.

(** The state after [TextBox], for any keyword arguments that pass. *)
Lemma TextBox_effects (s : State) (content : string) (x y : R)
    (txt_kwargs rect_kwargs : option pydict) (padding : R) :
  let tk := default ∅ txt_kwargs in
  let rk := default ∅ rect_kwargs in
  Forall (fun k => tk !! k = None) ["self"; "text"; "x"; "y"] ->
  Forall (fun k => rk !! k = None)
    ["self"; "element"; "function"; "x"; "y"; "width"; "height"] ->
  textbox_padding rk = Some padding ->
  let txt0 := primitives.Text content (TEXT_DEFAULTS (self s)) x y tk
                (uuid.uuid4 (uuid_calls s)) in
  let rect0 := primitives.Shape "rectangle" (BOX_DEFAULTS (self s)) x y
                 (primitives.width txt0 + 2 * padding)
                 (primitives.height txt0 + 2 * padding)
                 (delete "padding" rk) (uuid.uuid4 (S (uuid_calls s))) in
  TextBox content x y txt_kwargs rect_kwargs s =
  Ok (S (length (heap s)),
      grouped (length (heap s)) (S (length (heap s)))
        (registered rect0 (registered txt0 s))).
Proof.
  intros tk rk Htk Hrk Hpad txt0 rect0. unfold TextBox. cbv zeta. fold tk rk.
  erewrite bind_Ok; last by apply Text_run. fold txt0.
  erewrite bind_Ok; last first.
  { apply check_kwargs_None. rewrite !Forall_cons in Hrk. rewrite !Forall_cons.
    destruct Hrk as (? & ? & ? & _). repeat split; try apply Forall_nil_2; done. }
  erewrite bind_Ok; last first.
  { rewrite textbox_padding_run, Hpad. reflexivity. }
  change (Some Rectangle) with (shape_method <$> Some UseRectangle).
  erewrite create_bounding_element_effects;
    [|state_simpl; apply heap_lookup_snoc|]; last first.
  { rewrite !Forall_cons in Hrk. rewrite !Forall_cons.
    destruct Hrk as (? & ? & ? & ? & ? & ? & ? & _).
    repeat split; try apply Forall_nil_2;
      (rewrite lookup_delete_ne by done); done. }
  state_simpl. rewrite length_app. simpl length.
  replace (length (heap s) + 1) with (S (length (heap s))) by lia.
  reflexivity.
Qed.

Lemma TextBox_inv (s s' : State) (content : string) (x y : R)
    (txt_kwargs rect_kwargs : option pydict) (r : ref) :
  TextBox content x y txt_kwargs rect_kwargs s = Ok (r, s') ->
  let tk := default ∅ txt_kwargs in
  let rk := default ∅ rect_kwargs in
  exists padding : R,
    Forall (fun k => tk !! k = None) ["self"; "text"; "x"; "y"] /\
    Forall (fun k => rk !! k = None)
      ["self"; "element"; "function"; "x"; "y"; "width"; "height"] /\
    textbox_padding rk = Some padding /\
    r = S (length (heap s)) /\
    let txt0 := primitives.Text content (TEXT_DEFAULTS (self s)) x y tk
                  (uuid.uuid4 (uuid_calls s)) in
    s' = grouped (length (heap s)) (S (length (heap s)))
           (registered
              (primitives.Shape "rectangle" (BOX_DEFAULTS (self s)) x y
                 (primitives.width txt0 + 2 * padding)
                 (primitives.height txt0 + 2 * padding)
                 (delete "padding" rk) (uuid.uuid4 (S (uuid_calls s))))
              (registered txt0 s)).
Proof.
  intros Hrun tk rk. pose proof Hrun as Hrun'.
  unfold TextBox in Hrun'. cbv zeta in Hrun'. fold tk rk in Hrun'.
  apply bind_Ok_inv in Hrun' as (t & s1 & Htext & Hrest).
  apply Text_inv in Htext as (Htk & -> & ->).
  apply bind_Ok_inv in Hrest as (u & s2 & Hcheck & Hrest).
  apply check_kwargs_inv in Hcheck as [-> Hrk1].
  apply bind_Ok_inv in Hrest as (padding & s3 & Hpad & Hrest).
  rewrite textbox_padding_run in Hpad.
  destruct (textbox_padding rk) as [p|] eqn:Hp; [|discriminate].
  injection Hpad as <- <-.
  change (Some Rectangle) with (shape_method <$> Some UseRectangle) in Hrest.
  apply create_bounding_element_inv in Hrest as (obj & _ & Hrk2 & _ & _).
  assert (Forall (fun k => rk !! k = None)
            ["self"; "element"; "function"; "x"; "y"; "width"; "height"]) as Hrk.
  { rewrite !Forall_cons in Hrk1. rewrite !Forall_cons in Hrk2. rewrite !Forall_cons.
    destruct Hrk1 as (? & ? & ? & _). destruct Hrk2 as (_ & Hx & Hy & Hw & Hh & _).
    rewrite lookup_delete_ne in Hx, Hy, Hw, Hh by done.
    repeat split; try apply Forall_nil_2; done. }
  exists p. split; [done|]. split; [done|]. split; [done|].
  rewrite (TextBox_effects s content x y txt_kwargs rect_kwargs p Htk Hrk Hp) in Hrun.
  by injection Hrun as <- <-.
Qed.

Lemma export_elements_inv (objs : list ref) (s s' : State) (u : unit) :
  export_elements objs s = Ok (u, s') ->
  exists entries, serialized (heap s) objs entries /\
    s' = with_self (with_elements (elements (data (self s)) ++ entries) (self s)) s.
Proof.
  revert s. induction objs as [|r objs IH]; intros s; cbn [export_elements].
  - intros [= _ <-]. exists []. split; [constructor|].
    rewrite app_nil_r. by destruct s as [[[] ? ? ? ?] ? ? ?].
  - intros Hrun. apply bind_Ok_inv in Hrun as (obj & s1 & Hderef & Hrest).
    unfold deref in Hderef. destruct (heap s !! r) as [obj'|] eqn:Hr; [|discriminate].
    injection Hderef as <- <-.
    apply bind_Ok_inv in Hrest as (u' & s2 & Happend & Hrest).
    injection Happend as _ <-.
    apply IH in Hrest as (entries & Hser & ->). state_simpl.
    exists (primitives.export obj' :: entries). split.
    + constructor; [by exists obj'|exact Hser].
    + unfold with_self, with_elements. state_simpl. by rewrite <- app_assoc.
Qed.

Lemma export_to_file_inv (save_path : string) (s s' : State) (u : unit) :
  export_to_file save_path s = Ok (u, s') ->
  exists entries written,
    serialized (heap s) (draw_objs (self s)) entries /\
    export_path save_path s = Ok (written, s) /\
    s' = exported entries written s.
Proof.
  intros Hrun. pose proof Hrun as Hrun'. unfold export_to_file in Hrun'.
  apply bind_Ok_inv in Hrun' as (sb & s1 & [= <- <-] & Hrest).
  apply bind_Ok_inv in Hrest as (u' & s2 & Hexp & _).
  apply export_elements_inv in Hexp as (entries & Hser & _).
  destruct (export_to_file_run save_path entries s Hser)
    as (written & Hpath & Hok & Hraise).
  cbv zeta in Hok, Hraise.
  destruct (os.writable written) eqn:Hw.
  - rewrite (Hok eq_refl) in Hrun. injection Hrun as <-. by exists entries, written.
  - rewrite (Hraise eq_refl) in Hrun. discriminate.
Qed.

Lemma id_in_heap (h : list primitives.ExcaliDrawPrimitive) r obj :
  h !! r = Some obj -> primitives.id obj ∈ primitives.id <$> h.
Proof. intros Hr. apply list_elem_of_fmap. exists obj. split; [done|]. by eapply list_elem_of_lookup_2. Qed.

(** Every creating or composing call that returns is a sequence of
    effects. *)
Lemma run_effects (c : call) (s s' : State) :
  run c s = Ok (tt, s') -> (forall save_path, c <> CallExportToFile save_path) ->
  rtc effect s s'.
Proof.
  destruct c; cbn [run]; intros Hrun Hcreate.
  - apply bind_Ok_inv in Hrun as (r & s1 & Hrun & [= <-]).
    apply (shape_method_inv UseRectangle) in Hrun as (_ & _ & ->).
    apply rtc_once. apply effect_registered; [reflexivity|by constructor].
  - apply bind_Ok_inv in Hrun as (r & s1 & Hrun & [= <-]).
    apply (shape_method_inv UseDiamond) in Hrun as (_ & _ & ->).
    apply rtc_once. apply effect_registered; [reflexivity|by constructor].
  - apply bind_Ok_inv in Hrun as (r & s1 & Hrun & [= <-]).
    apply (shape_method_inv UseEllipse) in Hrun as (_ & _ & ->).
    apply rtc_once. apply effect_registered; [reflexivity|by constructor].
  - apply bind_Ok_inv in Hrun as (r & s1 & Hrun & [= <-]).
    apply Text_inv in Hrun as (_ & _ & ->).
    apply rtc_once. apply effect_registered; [reflexivity|by constructor].
  - apply bind_Ok_inv in Hrun as (r & s1 & Hrun & [= <-]).
    apply (line_method_inv UseLine) in Hrun as (_ & _ & ->).
    apply rtc_once. apply effect_registered; [reflexivity|by constructor].
  - apply bind_Ok_inv in Hrun as (r & s1 & Hrun & [= <-]).
    apply (line_method_inv UseArrow) in Hrun as (_ & _ & ->).
    apply rtc_once. apply effect_registered; [reflexivity|by constructor].
  - apply bind_Ok_inv in Hrun as (r & s1 & Hrun & [= <-]).
    apply (line_method_inv UseDoubleArrow) in Hrun as (_ & _ & ->).
    apply rtc_once. apply effect_registered; [reflexivity|by constructor].
  - apply bind_Ok_inv in Hrun as (r & s1 & Hrun & [= <-]).
    apply TextBox_inv in Hrun as (padding & _ & _ & _ & _ & ->).
    match goal with
    | |- rtc effect _ (grouped _ _ (registered ?rect (registered ?txt _))) =>
        apply (rtc_l _ _ (registered txt s));
          [apply effect_registered; [reflexivity|by constructor]|];
        apply (rtc_l _ _ (registered rect (registered txt s)));
          [apply effect_registered; [reflexivity|by constructor]|]
    end.
    apply rtc_once. apply effect_grouped; state_simpl; apply lookup_lt_is_Some;
      rewrite !length_app; simpl; lia.
  - apply bind_Ok_inv in Hrun as (r & s1 & Hrun & [= <-]).
    apply create_bounding_element_inv in Hrun as (obj & HE & _ & _ & ->).
    match goal with
    | |- rtc effect _ (grouped _ _ (registered ?rect _)) =>
        apply (rtc_l _ _ (registered rect s));
          [apply effect_registered; [reflexivity|by constructor]|]
    end.
    apply rtc_once. apply effect_grouped; state_simpl.
    + exists obj. by apply lookup_app_l_Some.
    + apply lookup_lt_is_Some. rewrite length_app. simpl. lia.
  - apply create_binding_arrows_inv in Hrun as (so & eo & Hs & He & _ & ->).
    apply rtc_once. apply effect_registered; [reflexivity|].
    repeat constructor; simpl; by eapply id_in_heap.
  - by destruct (Hcreate save_path).
Qed.


(** ** What every call keeps *)

Lemma append_group_fmap {A} (f : primitives.ExcaliDrawPrimitive -> A) r g h :
  (forall obj, f (primitives.append_groupId obj g) = f obj) ->
  f <$> append_group r g h = f <$> h.
Proof.
  intros Hf. unfold append_group. destruct (h !! r) as [obj|] eqn:Hr; [|done].
  rewrite list_fmap_insert, Hf. apply list_insert_id.
  rewrite list_lookup_fmap. unfold ref in *. by rewrite Hr.
Qed.



Lemma effect_all_registered (s s' : State) :
  effect s s' -> all_registered s -> all_registered s'.
Proof.
  unfold all_registered. intros [p _ _|E B _ _] Hreg; state_simpl.
  - rewrite Hreg, length_app. simpl. by rewrite Nat.add_1_r, seq_S.
  - by rewrite !append_group_length.
Qed.


Lemma effect_ids_drawn (s s' : State) :
  Inj (=) (=) uuid.uuid4 -> effect s s' -> ids_drawn s -> ids_drawn s'.
Proof.
  unfold ids_drawn. intros Hinj [p Hid _|E B _ _] [Hnodup Hdrawn];
    state_simpl.
  - rewrite fmap_app. simpl. split.
    + apply NoDup_app. split; [done|]. split; [|apply NoDup_singleton].
      intros i Hi Hi'. apply list_elem_of_singleton in Hi'. subst i.
      rewrite Forall_forall in Hdrawn. destruct (Hdrawn _ Hi) as (k & Hk & Heq).
      rewrite Hid in Heq. apply Hinj in Heq. lia.
    + apply Forall_app. split.
      * eapply Forall_impl; [exact Hdrawn|]. intros i (k & Hk & ->). exists k. split; [lia|done].
      * apply Forall_singleton. exists (uuid_calls s). split; [lia|done].
  - rewrite !append_group_fmap by done. split; [done|].
    eapply Forall_impl; [exact Hdrawn|]. intros i (k & Hk & ->). exists k. split; [lia|done].
Qed.


Lemma effect_bindings_ok (s s' : State) :
  effect s s' -> bindings_ok s -> bindings_ok s'.
Proof.
  unfold bindings_ok, bindings_resolve.
  intros [p _ Hp|E B _ _] Hok; state_simpl.
  - rewrite fmap_app. apply Forall_app. split.
    + eapply Forall_impl; [exact Hok|]. intros obj Hobj.
      eapply Forall_impl; [exact Hobj|]. intros b Hb. apply elem_of_app. by left.
    + apply Forall_singleton. eapply Forall_impl; [exact Hp|].
      intros b Hb. apply elem_of_app. by left.
  - set (g := uuid.uuid4 (uuid_calls s)).
    assert (primitives.id <$> append_group B g (append_group E g (heap s))
            = primitives.id <$> heap s) as Hids by (by rewrite !append_group_fmap).
    apply (Forall_impl (fun p => Forall (fun b => primitives.elementId b
                                                  ∈ primitives.id <$> heap s) (bindings p)));
      [|intros p Hp; by rewrite Hids].
    apply (Forall_fmap bindings
             (fun bs => Forall (fun b => primitives.elementId b
                                         ∈ primitives.id <$> heap s) bs)).
    rewrite !append_group_fmap by done. by apply Forall_fmap.
Qed.


Lemma exported_all_registered entries written s :
  all_registered s -> all_registered (exported entries written s).
Proof. done. Qed.

Lemma rtc_effect_invariant (P : State -> Prop) (s s' : State) :
  (forall s1 s2, effect s1 s2 -> P s1 -> P s2) -> rtc effect s s' -> P s -> P s'.
Proof. intros Hstep Hrtc. induction Hrtc as [|s1 s2 s3 H12 _ IH]; eauto. Qed.

(** An invariant of the effects and of export holds in every reachable
    state, when it holds for a new builder. *)
Lemma reachable_invariant (P : State -> Prop) :
  (forall custom_defaults sb, __init__ custom_defaults = Ok sb -> P (new_state sb)) ->
  (forall s1 s2, effect s1 s2 -> P s1 -> P s2) ->
  (forall entries written s, P s -> P (exported entries written s)) ->
  forall s, reachable s -> P s.
Proof.
  intros Hnew Hstep Hexp s Hreach.
  induction Hreach as [cd sb Hinit|s s' c _ IH Hrun]; [by eapply Hnew|].
  assert ((exists save_path, c = CallExportToFile save_path) \/
          (forall save_path, c <> CallExportToFile save_path)) as [[save_path ->]|Hcreate]
    by (destruct c; eauto).
  - cbn [run] in Hrun.
    apply export_to_file_inv in Hrun as (entries & written & _ & _ & ->).
    by apply Hexp.
  - eapply rtc_effect_invariant; [exact Hstep| |exact IH].
    by eapply run_effects.
Qed.



Lemma reachable_all_registered (s : State) : reachable s -> all_registered s.
Proof.
  revert s. apply reachable_invariant.
  - intros cd sb Hinit. apply init_Ok_loop in Hinit as [_ Hinit].
    apply loop_frame in Hinit as (_ & _ & _ & Hobjs & _).
    unfold all_registered. simpl. by rewrite Hobjs.
  - apply effect_all_registered.
  - intros. by apply exported_all_registered.
Qed.

(** X1. In every reachable state the builder has registered each primitive of
    the heap exactly once, in the order of creation. *)
Theorem reachable_registers_every_primitive (s : State) :
  reachable s ->
  draw_objs (self s) = seq 0 (length (heap s)) /\
  NoDup (draw_objs (self s)) /\
  live_objs s.
Proof.
  intros Hreach. pose proof (reachable_all_registered s Hreach) as Hall.
  unfold all_registered in Hall. split; [done|]. unfold live_objs. rewrite Hall.
  split; [apply NoDup_seq|].
  apply Forall_forall. intros r Hr. apply elem_of_seq in Hr.
  apply lookup_lt_is_Some. lia.
Qed.


(** When the generator never repeats an identifier, the primitives of a
    reachable state have pairwise distinct ids. *)
Theorem reachable_ids_distinct (s : State) :
  Inj (=) (=) uuid.uuid4 ->
  reachable s ->
  NoDup (primitives.id <$> heap s).
Proof.
  intros Hinj Hreach.
  assert (ids_drawn s) as [Hnodup _]; [|done].
  revert s Hreach. apply reachable_invariant.
  - intros cd sb _. split; [apply NoDup_nil_2|apply Forall_nil_2].
  - intros s1 s2. by apply effect_ids_drawn.
  - done.
Qed.

(** In a reachable state every binding of a line names the id of a
    primitive of the document: no binding dangles. *)
Theorem reachable_bindings_resolve (s : State)
    (line : primitives.ExcaliDrawPrimitive) (b : primitives.Binding) :
  reachable s ->
  line ∈ heap s ->
  primitives.startBinding line = Some b \/ primitives.endBinding line = Some b ->
  exists target : primitives.ExcaliDrawPrimitive,
    target ∈ heap s /\ primitives.id target = primitives.elementId b.
Proof.
  intros Hreach Hline Hb.
  assert (bindings_ok s) as Hok.
  { clear Hline Hb. revert s Hreach. apply reachable_invariant.
    - intros cd sb _. apply Forall_nil_2.
    - apply effect_bindings_ok.
    - done. }
  unfold bindings_ok, bindings_resolve in Hok. rewrite Forall_forall in Hok.
  specialize (Hok line Hline). rewrite Forall_forall in Hok.
  assert (b ∈ bindings line) as Hin.
  { unfold bindings. apply elem_of_app.
    destruct Hb as [->| ->]; [left|right]; by apply list_elem_of_singleton. }
  apply Hok in Hin. apply list_elem_of_fmap in Hin as (target & Hid & Htarget).
  by exists target.
Qed.










(** ** Keyword arguments and padding *)

Lemma grouped_last_two (h : list primitives.ExcaliDrawPrimitive)
    (a b : primitives.ExcaliDrawPrimitive) (g : string) :
  append_group (S (length h)) g (append_group (length h) g ((h ++ [a]) ++ [b]))
  = h ++ [primitives.append_groupId a g; primitives.append_groupId b g].
Proof.
  rewrite <- app_assoc. simpl.
  assert ((h ++ [a; b]) !! length h = Some a) as Ha.
  { rewrite lookup_app_r by lia. by rewrite Nat.sub_diag. }
  unfold append_group at 2. unfold ref in *. rewrite Ha.
  rewrite insert_app_r_alt by lia. rewrite Nat.sub_diag. simpl.
  assert ((h ++ [primitives.append_groupId a g; b]) !! S (length h) = Some b) as Hb.
  { rewrite lookup_app_r by lia. by replace (S (length h) - length h) with 1 by lia. }
  unfold append_group. unfold ref in *. rewrite Hb.
  rewrite insert_app_r_alt by lia.
  by replace (S (length h) - length h) with 1 by lia.
Qed.

(** X5. The padding of a text box is set through [rect_kwargs]: an entry
    [padding] there is the padding of the bounding rectangle and is no style
    key of the rectangle; the remaining entries are its style overrides. *)
Theorem TextBox_padding_from_rect_kwargs (s : State) (content : string) (x y : R)
    (rect_kwargs : pydict) (p : R) :
  rect_kwargs !! "padding" = Some (PyNum p) ->
  Forall (fun k => rect_kwargs !! k = None)
    ["self"; "element"; "function"; "x"; "y"; "width"; "height"] ->
  exists (txt rect : primitives.ExcaliDrawPrimitive) (s' : State),
    TextBox content x y None (Some rect_kwargs) s = Ok (S (length (heap s)), s') /\
    heap s' = heap s ++ [txt; rect] /\
    primitives.excal_type txt = "text" /\
    primitives.excal_type rect = "rectangle" /\
    primitives.width rect = (primitives.width txt + 2 * p)%R /\
    primitives.height rect = (primitives.height txt + 2 * p)%R /\
    primitives.center rect = (x, y) /\
    primitives.config rect = delete "padding" rect_kwargs ∪ BOX_DEFAULTS (self s).
Proof.
  intros Hp Hk.
  assert (textbox_padding rect_kwargs = Some p) as Hpad
    by (unfold textbox_padding; by rewrite Hp).
  eexists _, _, _. split.
  { apply (TextBox_effects s content x y None (Some rect_kwargs) p);
      [apply empty_kwargs_name_nothing|exact Hk|exact Hpad]. }
  state_simpl. rewrite grouped_last_two. by repeat split.
Qed.

(** X6. Keyword arguments of [create_bounding_element] that name x, y, width
    or height make the call raise [TypeError], whatever the factory: the
    call of the factory passes these four itself. *)
Theorem create_bounding_element_rejects_geometry_kwargs (s : State) (E : ref)
    (obj : primitives.ExcaliDrawPrimitive) (function : option ShapeFactory)
    (p : R) (kwargs : pydict) (k : string) :
  heap s !! E = Some obj ->
  k ∈ ["x"; "y"; "width"; "height"] ->
  is_Some (kwargs !! k) ->
  exists msg : string,
    create_bounding_element E function p kwargs s = Raise (TypeError msg).
Proof.
  intros HE Hk Hsome.
  destruct (check_kwargs_clash ["x"; "y"; "width"; "height"] kwargs s k Hk Hsome)
    as [msg Hmsg].
  exists msg. unfold create_bounding_element.
  rewrite (bind_Ok _ _ _ _ _ (deref_Some _ _ _ HE)). cbv zeta.
  unfold mbind at 1, M_bind at 1. by rewrite Hmsg.
Qed.


(** ** More on binding arrows *)



(** X11. [create_binding_arrows] binds whatever its factory builds: with
    [self.Line], [self.Arrow] or [self.DoubleArrow] as [arrow] and any
    keyword arguments the factory accepts, the new line has the kind and the
    arrowheads of the factory, the caller's style overrides, and both
    bindings. *)
Theorem create_binding_arrows_with_factory (s : State) (start end_ : ref)
    (start_obj end_obj : primitives.ExcaliDrawPrimitive) (arrow : option line_factory)
    (padding : R) (kwargs : pydict) :
  heap s !! start = Some start_obj ->
  heap s !! end_ = Some end_obj ->
  Forall (fun k => kwargs !! k = None) ["self"; "start_pt"; "end_pt"] ->
  let f := default UseArrow arrow in
  exists (line : primitives.ExcaliDrawPrimitive),
    create_binding_arrows start end_ (line_method <$> arrow) padding kwargs s
      = Ok (tt, registered line s) /\
    primitives.class_of line = primitives.LineClass /\
    primitives.excal_type line = line_kind f /\
    primitives.config line = line_kwargs f kwargs ∪ LINE_DEFAULTS (self s) /\
    primitives.startBinding line =
      Some {| primitives.elementId := primitives.id start_obj;
              primitives.gap := padding |} /\
    primitives.endBinding line =
      Some {| primitives.elementId := primitives.id end_obj;
              primitives.gap := padding |}.
Proof.
  intros Hs He Hk f. eexists. split.
  { by apply create_binding_arrows_effects. }
  done.
Qed.


(** ** More on registration and export *)

Lemma serialized_app h objs1 objs2 entries1 entries2 :
  serialized h objs1 entries1 -> serialized h objs2 entries2 ->
  serialized h (objs1 ++ objs2) (entries1 ++ entries2).
Proof. apply Forall2_app. Qed.

(** X12. [add_element] does not look whether the element is registered
    already: registering a registered primitive a second time makes the loop
    of the next export append its entry a second time, after the entries of
    all registered primitives; the export then returns when the file can be
    opened, and raises an [OSError] when it cannot. *)
Theorem add_element_twice_exports_twice (s : State) (r : ref)
    (obj : primitives.ExcaliDrawPrimitive) (save_path : string) :
  live_objs s ->
  heap s !! r = Some obj ->
  r ∈ draw_objs (self s) ->
  exists (entries : list json) (s1 s2 : State) (written : string),
    add_element r s = Ok (r, s1) /\
    draw_objs (self s1) = draw_objs (self s) ++ [r] /\
    export_elements (draw_objs (self s1)) s1 = Ok (tt, with_self (self s2) s1) /\
    export_path save_path s1 = Ok (written, s1) /\
    (os.writable written = true -> export_to_file save_path s1 = Ok (tt, s2)) /\
    (os.writable written = false ->
     exists msg, export_to_file save_path s1 = Raise (OSError msg)) /\
    serialized (heap s) (draw_objs (self s)) entries /\
    primitives.export obj ∈ entries /\
    elements (data (self s2)) =
      elements (data (self s)) ++ entries ++ [primitives.export obj].
Proof.
  intros Hlive Hr Hin.
  destruct (serialized_exists _ _ Hlive) as [entries Hser].
  assert (serialized (heap s) (draw_objs (self s) ++ [r])
            (entries ++ [primitives.export obj])) as Hser'.
  { apply serialized_app; [done|]. constructor; [by exists obj|constructor]. }
  set (s1 := with_self (with_draw_objs (draw_objs (self s) ++ [r]) (self s)) s).
  destruct (export_to_file_run save_path _ s1 Hser') as (written & Hpath & Hok & Hraise).
  cbv zeta in Hok, Hraise.
  exists entries, s1. eexists _, written.
  split; [reflexivity|]. split; [reflexivity|].
  split; [|split; [exact Hpath|split; [exact Hok|]]].
  { change (draw_objs (self s1)) with (draw_objs (self s) ++ [r]).
    rewrite (export_elements_run _ _ s1 Hser'). reflexivity. }
  split. { intros Hw. eexists. by apply Hraise. }
  split; [exact Hser|]. split; [|done].
  apply list_elem_of_lookup in Hin as [i Hi].
  unfold serialized in Hser.
  destruct (Forall2_lookup_l _ _ _ _ _ Hser Hi) as (entry & Hentry & obj' & Hobj' & ->).
  assert (obj' = obj) as -> by (unfold ref in *; congruence).
  by eapply list_elem_of_lookup_2.
Qed.

Lemma split_app_sep (sep : Ascii.ascii) (pre suf : string) :
  split sep (pre +:+ String sep suf) = split sep pre ++ split sep suf.
Proof.
  induction pre as [|c pre IH].
  - change ("" +:+ String sep suf) with (String sep suf). simpl.
    by rewrite Ascii.eqb_refl.
  - change (String c pre +:+ String sep suf) with (String c (pre +:+ String sep suf)).
    cbn [split]. rewrite IH. destruct (Ascii.eqb c sep); [done|].
    destruct (split sep pre) as [|h t] eqn:Hsplit;
      [by destruct (split_nonempty sep pre)|done].
Qed.

Lemma split_last_with_extension (pre : string) :
  last (split "." (pre +:+ ".excalidraw")) = Some "excalidraw".
Proof.
  change ".excalidraw" with (String "." "excalidraw").
  rewrite split_app_sep. change (split "." "excalidraw") with ["excalidraw"].
  apply last_snoc.
Qed.

(** X13. A path that ends in ".excalidraw" is written as it is, and the
    path the file is written under is a fixed point: exporting again under
    the written path uses the same path. *)
Theorem export_path_keeps_extension (save_path : string) (s : State) :
  (forall pre, save_path = pre +:+ ".excalidraw" ->
     export_path save_path s = Ok (save_path, s)) /\
  (forall written, export_path save_path s = Ok (written, s) ->
     export_path written s = Ok (written, s)).
Proof.
  assert (forall pre, export_path (pre +:+ ".excalidraw") s
                      = Ok (pre +:+ ".excalidraw", s)) as Hkeep.
  { intros pre. destruct (export_path_run (pre +:+ ".excalidraw") s)
      as (extension & Hlast & ->).
    rewrite split_last_with_extension in Hlast. injection Hlast as <-.
    by rewrite bool_decide_false by (intros Hne; by apply Hne). }
  split; [by intros pre ->|].
  intros written Hwritten.
  destruct (export_path_run save_path s) as (extension & Hlast & Hrun).
  rewrite Hrun in Hwritten. injection Hwritten as <-.
  case_bool_decide as Hext; [apply Hkeep|].
  subst extension. rewrite <- Hrun. destruct (export_path_run save_path s)
    as (extension & Hlast' & Hrun').
  rewrite Hrun'. assert (extension = "excalidraw") as -> by congruence.
  by rewrite bool_decide_false by (intros Hne; by apply Hne).
Qed.

(** ** More on the constructor *)

Lemma loop_first_unrecognized pre key value post sb :
  (forall k, k ∈ pre.*1 -> recognized sb k) ->
  ~ recognized sb key ->
  custom_defaults_loop (pre ++ (key, value) :: post) sb
  = Raise (Exception ("Key <" +:+ key +:+ "> not used.")).
Proof.
  revert sb. induction pre as [|[k v] pre IH]; intros sb Hpre Hkey;
    cbn [app custom_defaults_loop].
  - by rewrite custom_default_unrecognized.
  - assert (recognized sb k) as Hk by (apply Hpre; rewrite fmap_cons; apply elem_of_cons; by left).
    rewrite custom_default_recognized by done. apply IH.
    + intros k' Hk'. rewrite recognized_setitem by done. apply Hpre.
      rewrite fmap_cons. apply elem_of_cons. by right.
    + by rewrite recognized_setitem.
Qed.

(** X14. When no keyword argument is named [self], the constructor stops at
    the first custom default whose key no profile has, reading the keyword
    arguments in the order they were given, and its exception names that
    key; later keys are not looked at. *)
Theorem init_raises_at_first_unrecognized_key
    (pre post : list (string * pyval)) (key : string) (value : pyval) :
  "self" ∉ (pre ++ (key, value) :: post).*1 ->
  (forall k, k ∈ pre.*1 -> recognized initial_builder k) ->
  ~ recognized initial_builder key ->
  __init__ (pre ++ (key, value) :: post)
  = Raise (Exception ("Key <" +:+ key +:+ "> not used.")).
Proof.
  intros Hself Hpre Hkey. rewrite init_loop by done.
  by apply loop_first_unrecognized.
Qed.

(** X15. A custom default reaches the shapes only. After a construction
    with the custom default [key = value], a rectangle made without an
    override for [key] has [value] under [key], while a line and a text made
    the same way have what the static tables give for [key]. *)
Theorem custom_default_reaches_shapes_only
    (custom_defaults : list (string * pyval)) (sb : SketchBuilder)
    (key : string) (value : pyval) (s : State)
    (x y width height : R) (start_pt end_pt : R * R) (content : string) :
  __init__ custom_defaults = Ok sb ->
  NoDup custom_defaults.*1 ->
  (key, value) ∈ custom_defaults ->
  self s = sb ->
  exists shape line txt : primitives.ExcaliDrawPrimitive,
    Rectangle x y width height ∅ s = Ok (length (heap s), registered shape s) /\
    Line start_pt end_pt ∅ s = Ok (length (heap s), registered line s) /\
    Text content x y ∅ s = Ok (length (heap s), registered txt s) /\
    primitives.config shape !! key = Some value /\
    primitives.config line !! key =
      update defaults.BOX_DEFAULTS defaults.LINE_DEFAULTS !! key /\
    primitives.config txt !! key =
      update defaults.BOX_DEFAULTS defaults.TEXT_DEFAULTS !! key.
Proof.
  intros Hinit Hnodup Hin Hself. apply init_Ok_loop in Hinit as [_ Hinit].
  apply loop_frame in Hinit as (Hline & Htext & _ & _ & Hbox).
  eexists _, _, _.
  split; [apply Rectangle_run, empty_kwargs_name_nothing|].
  split; [apply Line_run, empty_kwargs_name_nothing|].
  split; [apply Text_run, empty_kwargs_name_nothing|].
  cbn [primitives.config primitives.Shape primitives.Line primitives.Text].
  rewrite !merge_style_empty, Hself, Hline, Htext, Hbox.
  split; [by apply foldl_insert_in|done].
Qed.


(** X8. A bounding element around a bounding element. The outer rectangle
    is larger than the element by both paddings on each side and has the
    center of the element; the inner rectangle carries both group ids, the
    element the first only, the outer rectangle the second only. *)
Theorem create_bounding_element_nested (s : State) (E : ref)
    (obj : primitives.ExcaliDrawPrimitive) (p1 p2 : R) :
  heap s !! E = Some obj ->
  let B := length (heap s) in
  let g1 := uuid.uuid4 (S (uuid_calls s)) in
  let g2 := uuid.uuid4 (S (S (S (uuid_calls s)))) in
  exists (inner outer : primitives.ExcaliDrawPrimitive) (s1 s2 : State),
    create_bounding_element E None p1 ∅ s = Ok (B, s1) /\
    create_bounding_element B None p2 ∅ s1 = Ok (S B, s2) /\
    heap s2 !! E = Some (primitives.append_groupId obj g1) /\
    heap s2 !! B = Some inner /\
    heap s2 !! S B = Some outer /\
    primitives.width outer = (primitives.width obj + 2 * p1 + 2 * p2)%R /\
    primitives.height outer = (primitives.height obj + 2 * p1 + 2 * p2)%R /\
    primitives.center outer = primitives.center obj /\
    primitives.center inner = primitives.center obj /\
    primitives.groupIds inner = [g1; g2] /\
    primitives.groupIds outer = [g2].
Proof.
  intros HE B g1 g2.
  assert (E < length (heap s)) as Hlt by (by eapply lookup_lt_Some).
  pose proof (create_bounding_element_run s E obj None p1 eq_refl HE) as Hrun1.
  cbv zeta in Hrun1. fold B g1 in Hrun1.
  match type of Hrun1 with _ = Ok (_, ?st) => set (s1 := st) in * end.
  assert (heap s1 !! B = Some (primitives.append_groupId
            (primitives.Shape "rectangle" (BOX_DEFAULTS (self s))
               (primitives.x obj) (primitives.y obj)
               (primitives.width obj + 2 * p1) (primitives.height obj + 2 * p1) ∅
               (uuid.uuid4 (uuid_calls s))) g1)) as HB.
  { unfold s1. state_simpl. unfold B.
    rewrite lookup_app_r by (rewrite length_insert; lia).
    by rewrite length_insert, Nat.sub_diag. }
  pose proof (create_bounding_element_run s1 B _ None p2 eq_refl HB) as Hrun2.
  cbv zeta in Hrun2.
  assert (length (heap s1) = S B) as Hlen.
  { unfold s1. state_simpl. rewrite length_app, length_insert. simpl. unfold B. lia. }
  rewrite Hlen in Hrun2.
  eexists _, _, s1, _. split; [exact Hrun1|]. split; [exact Hrun2|].
  state_simpl.
  assert (forall a, (<[B:=a]> (heap s1)) !! E = heap s1 !! E) as HE'
    by (intros a; apply list_lookup_insert_ne; unfold B; lia).
  split.
  { rewrite lookup_app_l by (rewrite length_insert, Hlen; unfold B; lia).
    rewrite HE'. unfold s1. state_simpl.
    rewrite lookup_app_l by (rewrite length_insert; lia).
    by apply list_lookup_insert_eq. }
  split.
  { rewrite lookup_app_l by (rewrite length_insert, Hlen; lia).
    apply list_lookup_insert_eq. rewrite Hlen. lia. }
  split.
  { rewrite lookup_app_r by (rewrite length_insert, Hlen; lia).
    by rewrite length_insert, Hlen, Nat.sub_diag. }
  cbn. repeat split; try lra.
Qed.

Lemma grouped_element_and_last (h : list primitives.ExcaliDrawPrimitive) (E : ref)
    (obj a : primitives.ExcaliDrawPrimitive) (g : string) :
  h !! E = Some obj ->
  append_group (length h) g (append_group E g (h ++ [a]))
  = <[E := primitives.append_groupId obj g]> h ++ [primitives.append_groupId a g].
Proof.
  intros HE. assert (E < length h) as Hlt by (by eapply lookup_lt_Some).
  assert ((h ++ [a]) !! E = Some obj) as HE' by (by apply lookup_app_l_Some).
  unfold append_group at 2. unfold ref in *. rewrite HE'.
  rewrite insert_app_l by done.
  assert ((<[E:=primitives.append_groupId obj g]> h ++ [a]) !! length h = Some a) as Ha.
  { rewrite lookup_app_r by (rewrite length_insert; lia).
    by rewrite length_insert, Nat.sub_diag. }
  unfold append_group. unfold ref in *. rewrite Ha.
  rewrite <- (length_insert h E (primitives.append_groupId obj g)) at 1.
  apply heap_insert_snoc.
Qed.

(** X7. With [self.Rectangle], [self.Diamond] or [self.Ellipse] as factory and
    any keyword arguments the factory accepts, [create_bounding_element]
    registers a new shape of the factory's kind, larger than the element by
    the padding on each side and with its center, styled by the box profile
    under the caller's overrides, and puts it in one new group with the
    element. *)
Theorem create_bounding_element_with_factory (s : State) (E : ref)
    (obj : primitives.ExcaliDrawPrimitive) (function : option shape_factory)
    (p : R) (kwargs : pydict) :
  heap s !! E = Some obj ->
  Forall (fun k => kwargs !! k = None) ["self"; "x"; "y"; "width"; "height"] ->
  let B := length (heap s) in
  let g := uuid.uuid4 (S (uuid_calls s)) in
  exists (shape : primitives.ExcaliDrawPrimitive) (s' : State),
    create_bounding_element E (shape_method <$> function) p kwargs s = Ok (B, s') /\
    draw_objs (self s') = draw_objs (self s) ++ [B] /\
    heap s' = <[E := primitives.append_groupId obj g]> (heap s) ++ [shape] /\
    primitives.class_of shape = primitives.ShapeClass /\
    primitives.excal_type shape = shape_kind (default UseRectangle function) /\
    primitives.width shape = (primitives.width obj + 2 * p)%R /\
    primitives.height shape = (primitives.height obj + 2 * p)%R /\
    primitives.center shape = primitives.center obj /\
    primitives.config shape = kwargs ∪ BOX_DEFAULTS (self s) /\
    primitives.groupIds shape = [g].
Proof.
  intros HE Hk B g. eexists _, _. split.
  { by apply create_bounding_element_effects. }
  cbn [grouped registered self heap uuid_calls draw_objs with_draw_objs].
  split; [reflexivity|]. split.
  { by apply grouped_element_and_last. }
  done.
Qed.

End MoreProperties.

(** ** The further properties on the small instance *)

Lemma nth_id_length (n : nat) : String.length (demo.nth_id n) = S n.
Proof. induction n as [|n IH]; simpl; [done|]. by rewrite IH. Qed.

Lemma nth_id_inj : Inj (=) (=) demo.nth_id.
Proof.
  intros n m Heq. apply (f_equal String.length) in Heq.
  rewrite !nth_id_length in Heq. lia.
Qed.

Lemma demo_scene_reachable : reachable demo.scene.
Proof.
  eapply (reachable_call _ _ (CallRectangle 300 100 50 50 ∅)).
  - eapply (reachable_call _ _ (CallRectangle 100 100 50 50 ∅)).
    + by apply (reachable_new []).
    + cbn [run]. erewrite bind_Ok; [reflexivity|].
      apply Rectangle_run, empty_kwargs_name_nothing.
  - cbn [run]. erewrite bind_Ok; [reflexivity|].
    rewrite Rectangle_run by apply empty_kwargs_name_nothing. reflexivity.
Qed.

Lemma bound_scene_run :
  run (CallBindingArrows 0 1 None 10 ∅) demo.scene = Ok (tt, scenario.bound_scene).
Proof.
  cbn [run]. change (line_method <$> None) with (@None ArrowFactory).
  by rewrite (create_binding_arrows_run demo.scene 0 1 demo.rect1 demo.rect2 10).
Qed.

Lemma bound_scene_reachable : reachable scenario.bound_scene.
Proof. eapply reachable_call; [apply demo_scene_reachable|apply bound_scene_run]. Qed.

Lemma reachable_registers_every_primitive_witness :
  reachable demo.scene /\ draw_objs (self demo.scene) = [0; 1].
Proof.
  split; [exact demo_scene_reachable|].
  destruct (reachable_registers_every_primitive demo.scene demo_scene_reachable)
    as (Hobjs & _ & _).
  exact Hobjs.
Defined.


Lemma reachable_ids_distinct_witness :
  Inj (=) (=) demo.nth_id /\ reachable scenario.bound_scene /\
  NoDup ["u"; "uu"; "uuu"].
Proof.
  split; [exact nth_id_inj|]. split; [exact bound_scene_reachable|].
  exact (reachable_ids_distinct scenario.bound_scene nth_id_inj bound_scene_reachable).
Defined.

Lemma reachable_bindings_resolve_witness :
  reachable scenario.bound_scene /\
  scenario.arrow01 ∈ heap scenario.bound_scene /\
  exists target : primitives.ExcaliDrawPrimitive,
    target ∈ heap scenario.bound_scene /\ primitives.id target = "u".
Proof.
  split; [exact bound_scene_reachable|].
  assert (scenario.arrow01 ∈ heap scenario.bound_scene) as Hin.
  { apply elem_of_app. right. by apply list_elem_of_singleton. }
  split; [exact Hin|].
  exact (reachable_bindings_resolve scenario.bound_scene scenario.arrow01
           {| primitives.elementId := "u"; primitives.gap := 10 |}
           bound_scene_reachable Hin (or_introl eq_refl)).
Defined.



Lemma TextBox_padding_from_rect_kwargs_witness :
  scenario.padding_kwargs !! "padding" = Some (PyNum 5) /\
  exists (txt rect : primitives.ExcaliDrawPrimitive) (s' : State),
    TextBox "Hello" 0 0 None (Some scenario.padding_kwargs) demo.scene = Ok (3, s') /\
    heap s' = heap demo.scene ++ [txt; rect] /\
    primitives.width rect = (primitives.width txt + 2 * 5)%R.
Proof.
  split; [reflexivity|].
  assert (Forall (fun k => scenario.padding_kwargs !! k = None)
            ["self"; "element"; "function"; "x"; "y"; "width"; "height"]) as Hk
    by (repeat constructor).
  destruct (TextBox_padding_from_rect_kwargs demo.scene "Hello" 0 0
              scenario.padding_kwargs 5 eq_refl Hk)
    as (txt & rect & s' & Hrun & Hheap & _ & _ & Hw & _).
  by exists txt, rect, s'.
Defined.

Lemma create_bounding_element_rejects_geometry_kwargs_witness :
  heap demo.scene !! 0 = Some demo.rect1 /\
  is_Some (scenario.width_kwargs !! "width") /\
  exists msg : string,
    create_bounding_element 0 None 10 scenario.width_kwargs demo.scene
    = Raise (TypeError msg).
Proof.
  split; [reflexivity|]. split; [by eexists|].
  apply (create_bounding_element_rejects_geometry_kwargs demo.scene 0 demo.rect1 None 10
           scenario.width_kwargs "width" eq_refl).
  - do 2 (apply elem_of_cons; right). apply elem_of_cons. by left.
  - by eexists.
Defined.


Lemma create_binding_arrows_with_factory_witness :
  heap demo.scene !! 0 = Some demo.rect1 /\
  heap demo.scene !! 1 = Some demo.rect2 /\
  exists line : primitives.ExcaliDrawPrimitive,
    create_binding_arrows 0 1 (Some DoubleArrow) 10 demo.dot_kwargs demo.scene
      = Ok (tt, registered line demo.scene) /\
    primitives.startArrowhead line = Some (PyStr "arrow") /\
    primitives.endArrowhead line = Some (PyStr "arrow").
Proof.
  split; [reflexivity|]. split; [reflexivity|].
  assert (Forall (fun k => demo.dot_kwargs !! k = None) ["self"; "start_pt"; "end_pt"])
    as Hk by (repeat constructor).
  destruct (create_binding_arrows_with_factory demo.scene 0 1 demo.rect1 demo.rect2
              (Some UseDoubleArrow) 10 demo.dot_kwargs eq_refl eq_refl Hk)
    as (line & Hrun & _ & _ & Hcfg & _).
  exists line. split; [exact Hrun|].
  unfold primitives.startArrowhead, primitives.endArrowhead. rewrite Hcfg.
  split; reflexivity.
Defined.

Lemma add_element_twice_exports_twice_witness :
  live_objs demo.scene /\ 0 ∈ draw_objs (self demo.scene) /\
  os.writable "sketch.excalidraw" = true /\
  exists (s1 s2 : State),
    add_element 0 demo.scene = Ok (0, s1) /\
    draw_objs (self s1) = [0; 1; 0] /\
    export_to_file "sketch" s1 = Ok (tt, s2) /\
    length (elements (data (self s2))) = 3.
Proof.
  split; [exact demo_scene_live|].
  assert (0 ∈ draw_objs (self demo.scene)) as Hin by (apply elem_of_cons; by left).
  split; [exact Hin|].
  assert (os.writable "sketch.excalidraw" = true) as Hw by reflexivity.
  split; [exact Hw|].
  destruct (add_element_twice_exports_twice demo.scene 0 demo.rect1 "sketch"
              demo_scene_live eq_refl Hin)
    as (entries & s1 & s2 & written & Hadd & Hobjs & _ & Hpath & Hrun & _ & Hser & _ & Hel).
  assert (written = "sketch.excalidraw") as ->.
  { assert (export_path "sketch" s1 = Ok ("sketch.excalidraw", s1)) as Hp by reflexivity.
    rewrite Hp in Hpath. by injection Hpath as <-. }
  exists s1, s2. split; [exact Hadd|]. split; [exact Hobjs|]. split; [exact (Hrun Hw)|].
  rewrite Hel. apply Forall2_length in Hser. simpl in *.
  rewrite length_app. simpl. rewrite <- Hser. reflexivity.
Defined.

Lemma init_raises_at_first_unrecognized_key_witness :
  ~ recognized initial_builder "colour" /\
  __init__ (scenario.known_defaults ++ ("colour", PyStr "red") :: scenario.red_defaults)
  = Raise (Exception "Key <colour> not used.").
Proof.
  assert (~ recognized initial_builder "colour") as Hkey.
  { intros [[v Hv]|[[v Hv]|[v Hv]]]; vm_compute in Hv; discriminate. }
  split; [exact Hkey|].
  apply (init_raises_at_first_unrecognized_key scenario.known_defaults
           scenario.red_defaults "colour" (PyStr "red")); [| |exact Hkey].
  - intros Hself. repeat (apply elem_of_cons in Hself as [Hself|Hself]; [discriminate|]).
    by apply elem_of_nil in Hself.
  - intros k Hk. apply list_elem_of_singleton in Hk as ->. left. by eexists.
Defined.

Lemma custom_default_reaches_shapes_only_witness :
  exists (sb : SketchBuilder) (shape line : primitives.ExcaliDrawPrimitive),
    __init__ scenario.red_defaults = Ok sb /\
    Rectangle 0 0 100 100 ∅ (new_state sb) = Ok (0, registered shape (new_state sb)) /\
    Line (0, 0)%R (1, 1)%R ∅ (new_state sb) = Ok (0, registered line (new_state sb)) /\
    primitives.config shape !! "strokeColor" = Some (PyStr "#ff0000") /\
    primitives.config line !! "strokeColor" = Some (PyStr "#000000").
Proof.
  eexists.
  match goal with |- exists shape line, __init__ _ = Ok ?sb /\ _ =>
    assert (__init__ scenario.red_defaults = Ok sb) as Hinit by (vm_compute; reflexivity);
    destruct (custom_default_reaches_shapes_only scenario.red_defaults sb
                "strokeColor" (PyStr "#ff0000") (new_state sb) 0 0 100 100
                (0, 0)%R (1, 1)%R "Hello" Hinit)
      as (shape & line & txt & Hrect & Hline & _ & Hshape & Hcfg & _);
      [apply NoDup_singleton|apply elem_of_cons; by left|reflexivity|]
  end.
  exists shape, line. split; [exact Hinit|]. split; [exact Hrect|].
  split; [exact Hline|]. split; [exact Hshape|]. rewrite Hcfg. reflexivity.
Defined.

Lemma create_bounding_element_nested_witness :
  heap demo.scene !! 0 = Some demo.rect1 /\
  exists (inner outer : primitives.ExcaliDrawPrimitive) (s1 s2 : State),
    create_bounding_element 0 None 10 ∅ demo.scene = Ok (2, s1) /\
    create_bounding_element 2 None 5 ∅ s1 = Ok (3, s2) /\
    heap s2 !! 3 = Some outer /\
    primitives.width outer = (50 + 2 * 10 + 2 * 5)%R /\
    primitives.groupIds inner = ["uuuu"; "uuuuuu"].
Proof.
  split; [reflexivity|].
  destruct (create_bounding_element_nested demo.scene 0 demo.rect1 10 5 eq_refl)
    as (inner & outer & s1 & s2 & Hrun1 & Hrun2 & _ & _ & Houter & Hw & _ & _ & _ & Hg & _).
  exists inner, outer, s1, s2. repeat split; assumption.
Defined.

Lemma create_bounding_element_with_factory_witness :
  heap demo.scene !! 0 = Some demo.rect1 /\
  exists (shape : primitives.ExcaliDrawPrimitive) (s' : State),
    create_bounding_element 0 (Some Ellipse) 10 demo.dot_kwargs demo.scene = Ok (2, s') /\
    primitives.excal_type shape = "ellipse" /\
    primitives.width shape = (50 + 2 * 10)%R.
Proof.
  split; [reflexivity|].
  assert (Forall (fun k => demo.dot_kwargs !! k = None)
            ["self"; "x"; "y"; "width"; "height"]) as Hk by (repeat constructor).
  destruct (create_bounding_element_with_factory demo.scene 0 demo.rect1
              (Some UseEllipse) 10 demo.dot_kwargs eq_refl Hk)
    as (shape & s' & Hrun & _ & _ & _ & Hkind & Hw & _).
  by exists shape, s'.
Defined.
